(** * Record stores of [sample.py]: a shallow embedding

    [sample.py] defines two in-memory repositories, [UserRepository] and
    [ProductRepository].  Each one owns a Python list of dictionaries and
    offers lookup by identifier, creation with default fields and (for users)
    an in-place merge.

    Dictionaries are Python objects: the list holds references, [get_user]
    hands out a reference, and [update_user] mutates the object it found.
    The embedding therefore keeps an explicit object heap; a record is a
    location, its fields live in the heap. *)

From Stdlib Require Import ZArith NArith Ascii String.
From Stdlib Require Import Floats.SpecFloat.
From stdpp Require Import gmap strings list fin_maps.

Local Open Scope string_scope.
Local Open Scope list_scope.

(** ** Python values *)

(** The values a field can hold ([Dict[str, Any]]): [None], booleans,
    integers, floats and strings.  A float is kept as the IEEE 754 datum of
    the Standard Library ([spec_float]); nested containers are left out. *)
Inductive value : Type :=
  | VNone
  | VBool (b : bool)
  | VInt (z : Z)
  | VFloat (f : spec_float)
  | VStr (s : string).

(** [bool] is a subclass of [int]: [True == 1] and [False == 0]. *)
Definition int_of_bool (b : bool) : Z := if b then 1%Z else 0%Z.

(** Integer against float: Python compares the exact mathematical values.
    A finite float is [(-1)^s * m * 2^e]. *)
Definition float_eq_int (f : spec_float) (z : Z) : bool :=
  match f with
  | S754_zero _ => (z =? 0)%Z
  | S754_finite s m e =>
      let v := if s then Z.neg m else Z.pos m in
      if (0 <=? e)%Z then (z =? v * 2 ^ e)%Z else (z * 2 ^ (- e) =? v)%Z
  | S754_infinity _ | S754_nan => false
  end.

(** The operator [==] on values, as used by [user['id'] == user_id]. *)
Definition py_eq (a b : value) : bool :=
  match a, b with
  | VNone, VNone => true
  | VBool x, VBool y => (int_of_bool x =? int_of_bool y)%Z
  | VBool x, VInt y => (int_of_bool x =? y)%Z
  | VInt x, VBool y => (x =? int_of_bool y)%Z
  | VInt x, VInt y => (x =? y)%Z
  | VFloat f, VFloat g => SFeqb f g
  | VFloat f, VInt z => float_eq_int f z
  | VInt z, VFloat f => float_eq_int f z
  | VFloat f, VBool y => float_eq_int f (int_of_bool y)
  | VBool x, VFloat f => float_eq_int f (int_of_bool x)
  | VStr s, VStr t => String.eqb s t
  | _, _ => false
  end.

(** ** Objects, heap and process state *)

(** A dictionary with string keys.  [d1 ∪ d2] keeps the binding of [d1] on a
    common key, so [d.update(u)] is [u ∪ d] and [{**b, **u}] is [u ∪ b]. *)
Abbreviation pydict := (gmap string value).

(** A reference to a dictionary object: its index in the heap. *)
Definition loc := nat.

(** What a call can raise.  [KeyError] and [IndexError] are Python's.
    [Dangling] has no Python counterpart: it marks a collection that names an
    object the heap does not hold, which no call sequence produces. *)
Inductive exn : Type :=
  | KeyError (key : string)
  | IndexError
  | Dangling (l : loc).

Inductive result (A : Type) : Type :=
  | Ok (a : A)
  | Raise (e : exn).
Arguments Ok {A} a.
Arguments Raise {A} e.

(** The process-wide generator behind the [random] module: an infinite tape
    of outputs and the number of outputs consumed so far. *)
Record Rng : Type := mkRng {
  tape : nat → N;
  cursor : nat
}.

(** One Python process holding one repository of each class.
    [users] is [UserRepository.users], [products] is
    [ProductRepository.products]; both list references into [heap]. *)
Record State : Type := mkState {
  heap : list pydict;
  rng : Rng;
  users : list loc;
  products : list loc
}.

(** ** A state and exception monad *)

Definition M (A : Type) : Type := State → result A * State.

#[export] Instance M_ret : MRet M := fun A a s => (Ok a, s).

#[export] Instance M_bind : MBind M := fun A B k m s =>
  match m s with
  | (Ok a, s') => k a s'
  | (Raise e, s') => (Raise e, s')
  end.

Definition raise {A} (e : exn) : M A := fun s => (Raise e, s).

(** Reading the object behind a reference. *)
Definition deref (l : loc) : M pydict :=
  fun s =>
    match heap s !! l with
    | Some d => (Ok d, s)
    | None => (Raise (Dangling l), s)
    end.

(** [d[key]]: subscripting raises [KeyError] on a missing key. *)
Definition subscript (d : pydict) (key : string) : M value :=
  match d !! key with
  | Some v => mret v
  | None => raise (KeyError key)
  end.

(** [d.get(key, dflt)]. *)
Definition dict_get (d : pydict) (key : string) (dflt : value) : value :=
  default dflt (d !! key).

(** Truth value of a dictionary in [if d:]: false exactly when it is empty. *)
Definition dict_truthy (d : pydict) : bool := negb (bool_decide (d = ∅)).

(** [obj.update(updates)] on the object at [l], in place. *)
Definition dict_update (l : loc) (updates : pydict) : M unit :=
  fun s =>
    match heap s !! l with
    | Some d =>
        (Ok tt, mkState (<[l := updates ∪ d]> (heap s)) (rng s) (users s) (products s))
    | None => (Raise (Dangling l), s)
    end.

(** Evaluating a dictionary display allocates a new object. *)
Definition alloc (d : pydict) : M loc :=
  fun s =>
    (Ok (length (heap s)),
     mkState (heap s ++ [d]) (rng s) (users s) (products s)).

(** ** The [random] and [string] modules *)

(** [random.random()]: the next 53-bit output [r], standing for the float
    [r / 2^53] in [0, 1). *)
Definition random : M N :=
  fun s =>
    let g := rng s in
    (Ok (tape g (cursor g) mod 2 ^ 53)%N,
     mkState (heap s) (mkRng (tape g) (S (cursor g))) (users s) (products s)).

(** [random.choices(population, k=k)] without weights:
    [[population[floor(random() * n)] for i in repeat(None, k)]] with
    [n = len(population)]. *)
Fixpoint choices (population : list ascii) (k : nat) : M (list ascii) :=
  match k with
  | O => mret []
  | S k' =>
      r ← random;
      let i := N.to_nat (r * N.of_nat (length population) / 2 ^ 53) in
      match population !! i with
      | Some c => rest ← choices population k'; mret (c :: rest)
      | None => raise IndexError
      end
  end.

Definition ascii_lowercase : string := "abcdefghijklmnopqrstuvwxyz".
Definition digits : string := "0123456789".

(** [''.join(chars)]. *)
Definition join (chars : list ascii) : string := string_of_list_ascii chars.

(** ** [class UserRepository] *)

Module UserRepository.

(** [self.users = []]. *)
Definition __init__ : M unit :=
  fun s => (Ok tt, mkState (heap s) (rng s) [] (products s)).

(** The loop of [get_user] over the remaining elements of [self.users]. *)
Fixpoint get_user_loop (user_id : value) (rest : list loc) : M (option loc) :=
  match rest with
  | [] => mret None
  | user :: rest' =>
      d ← deref user;
      v ← subscript d "id";
      if py_eq v user_id then mret (Some user)
      else get_user_loop user_id rest'
  end.

Definition get_user (user_id : value) : M (option loc) :=
  fun s => get_user_loop user_id (users s) s.

Definition fetch_user (user_id : value) : M (option loc) :=
  get_user user_id.

Definition _generate_id : M string :=
  chars ← choices (list_ascii_of_string (ascii_lowercase +:+ digits)) 9;
  mret (join chars).

(** [self.users.append(user)]. *)
Definition append (user : loc) : M unit :=
  fun s => (Ok tt, mkState (heap s) (rng s) (users s ++ [user]) (products s)).

(** The arguments of the three [get] calls are evaluated first, so
    [_generate_id] runs whether or not [user_data] has an ['id']. *)
Definition create_user (user_data : pydict) : M loc :=
  fresh ← _generate_id;
  user ← alloc (user_data ∪
                <["email" := dict_get user_data "email" (VStr "")]>
                (<["name" := dict_get user_data "name" (VStr "Unknown")]>
                (<["id" := dict_get user_data "id" (VStr fresh)]> ∅)));
  append user;;
  mret user.

(** [if user:] is false for [None] and for an empty dictionary; the call
    returns [user] either way. *)
Definition update_user (user_id : value) (updates : pydict) : M (option loc) :=
  user ← get_user user_id;
  match user with
  | Some l =>
      d ← deref l;
      if dict_truthy d then dict_update l updates;; mret user
      else mret user
  | None => mret user
  end.

End UserRepository.

(** ** [class ProductRepository] *)

Module ProductRepository.

(** [self.products = []]. *)
Definition __init__ : M unit :=
  fun s => (Ok tt, mkState (heap s) (rng s) (users s) []).

Fixpoint get_product_loop (product_id : value) (rest : list loc) : M (option loc) :=
  match rest with
  | [] => mret None
  | product :: rest' =>
      d ← deref product;
      v ← subscript d "id";
      if py_eq v product_id then mret (Some product)
      else get_product_loop product_id rest'
  end.

Definition get_product (product_id : value) : M (option loc) :=
  fun s => get_product_loop product_id (products s) s.

Definition fetch_product (product_id : value) : M (option loc) :=
  get_product product_id.

Definition _generate_id : M string :=
  chars ← choices (list_ascii_of_string (ascii_lowercase +:+ digits)) 9;
  mret (join chars).

(** [self.products.append(product)]. *)
Definition append (product : loc) : M unit :=
  fun s => (Ok tt, mkState (heap s) (rng s) (users s) (products s ++ [product])).

Definition create_product (product_data : pydict) : M loc :=
  fresh ← _generate_id;
  product ← alloc (product_data ∪
                   <["price" := dict_get product_data "price" (VFloat (S754_zero false))]>
                   (<["name" := dict_get product_data "name" (VStr "Unknown Product")]>
                   (<["id" := dict_get product_data "id" (VStr fresh)]> ∅)));
  append product;;
  mret product.

End ProductRepository.

(** ** The example at the end of the file *)

(** The block under [if __name__ == '__main__']: it constructs a repository,
    creates one user and looks it up under its identifier.  The two [print]
    calls write to standard output and touch nothing else; they are left
    out.  The result is the pair [(user, found_user)]. *)
Definition main : M (loc * option loc) :=
  UserRepository.__init__;;
  user ← UserRepository.create_user
           {[ "name" := VStr "John Doe"; "email" := VStr "john@example.com" ]};
  d ← deref user;
  user_id ← subscript d "id";
  found_user ← UserRepository.get_user user_id;
  mret (user, found_user).

(** ** Observations on states *)

(** What a call leaves behind, and what it returns. *)
Definition after {A} (m : M A) (s : State) : State := snd (m s).
Definition outcome {A} (m : M A) (s : State) : result A := fst (m s).

(** The fields of the object at [l], and its identifier field. *)
Definition record_of (s : State) (l : loc) : option pydict := heap s !! l.

Definition ident (s : State) (l : loc) : option value :=
  d ← heap s !! l; d !! "id".

(** The object at [l] exists and has the key ['id']. *)
Definition has_id (s : State) (l : loc) : bool :=
  match ident s l with Some _ => true | None => false end.

(** The test [user['id'] == user_id] on the object at [l]. *)
Definition is_match (s : State) (user_id : value) (l : loc) : bool :=
  match ident s l with Some v => py_eq v user_id | None => false end.

(** Every element of the collection is a record with an identifier. *)
Definition identified (s : State) (coll : list loc) : bool :=
  forallb (has_id s) coll.

(** The stored references whose record matches [user_id], in order. *)
Definition matching (s : State) (user_id : value) (coll : list loc) : list loc :=
  List.filter (is_match s user_id) coll.

(** The state after [k] outputs of the generator were consumed. *)
Definition consume (k : nat) (s : State) : State :=
  mkState (heap s) (mkRng (tape (rng s)) (k + cursor (rng s))) (users s) (products s).

(** A lowercase ASCII letter ([a]..[z]) or a decimal digit ([0]..[9]). *)
Definition is_lower_or_digit (c : ascii) : bool :=
  let n := nat_of_ascii c in
  ((97 <=? n)%nat && (n <=? 122)%nat) || ((48 <=? n)%nat && (n <=? 57)%nat).

(** The known fields of a user and of a product with their defaults, the
    identifier being a generated one (the table of the specification). *)
Definition user_known_fields (fresh : string) : pydict :=
  {[ "id" := VStr fresh; "name" := VStr "Unknown"; "email" := VStr "" ]}.

Definition product_known_fields (fresh : string) : pydict :=
  {[ "id" := VStr fresh; "name" := VStr "Unknown Product";
     "price" := VFloat (S754_zero false) ]}.

(** The states a process goes through: both repositories start empty, then
    any calls of [create_user], [update_user] and [create_product] follow
    ([get_user], [fetch_user], [get_product] and [fetch_product] leave the
    state as it is). *)
Inductive reachable : State → Prop :=
  | reach_new (h : list pydict) (g : Rng) :
      reachable (mkState h g [] [])
  | reach_create_user (s : State) (user_data : pydict) :
      reachable s →
      reachable (after (UserRepository.create_user user_data) s)
  | reach_update_user (s : State) (user_id : value) (updates : pydict) :
      reachable s →
      reachable (after (UserRepository.update_user user_id updates) s)
  | reach_create_product (s : State) (product_data : pydict) :
      reachable s →
      reachable (after (ProductRepository.create_product product_data) s).

(** ** Sample runs *)

(** A process that has just constructed its repositories, on a fixed tape. *)
Definition sample_tape : nat → N :=
  fun i => (N.of_nat i * 1000003 * 2 ^ 30 + 12345)%N.

Definition boot : State := mkState [] (mkRng sample_tape 0) [] [].

(** One user, created from a name alone; its identifier is generated. *)
Definition with_alice : State :=
  after (UserRepository.create_user {[ "name" := VStr "Alice" ]}) boot.

(** Two inputs that carry the same explicit identifier. *)
Definition first_a : pydict := {[ "id" := VStr "a"; "name" := VStr "first" ]}.
Definition second_a : pydict := {[ "id" := VStr "a"; "name" := VStr "second" ]}.

Definition with_first_a : State := after (UserRepository.create_user first_a) boot.

(** Two users, identified ["new"] and ["old"], created in that order. *)
Definition with_new_old : State :=
  after (UserRepository.create_user {[ "id" := VStr "old"; "name" := VStr "B" ]})
    (after (UserRepository.create_user {[ "id" := VStr "new"; "name" := VStr "A" ]})
       boot).

(** A store whose second element lost its ['id'] (a caller holding the
    reference deleted the key). *)
Definition with_anonymous : State :=
  mkState [ {[ "id" := VStr "a" ]}; {[ "name" := VStr "nameless" ]};
            {[ "id" := VStr "c" ]} ]
          (mkRng sample_tape 0) [0; 1; 2] [].

(** One user and one product. *)
Definition with_alice_and_pen : State :=
  after (ProductRepository.create_product {[ "name" := VStr "Pen" ]}) with_alice.

(** ** Proof support *)

(** Closed goals: conjunctions of equations settled by evaluation. *)
Ltac evaluate := repeat apply conj; vm_compute; reflexivity.

Ltac run :=
  unfold UserRepository.get_user, UserRepository.fetch_user,
    ProductRepository.get_product, ProductRepository.fetch_product,
    UserRepository.append, ProductRepository.append,
    deref, subscript, dict_update, alloc, raise, after, outcome in *;
  unfold mbind, M_bind, mret, M_ret in *; simpl in *.

(** The loop of [get_user] is a pure read. *)
Lemma get_user_loop_state (user_id : value) (coll : list loc) (s : State) :
  snd (UserRepository.get_user_loop user_id coll s) = s.
Proof.
  induction coll as [|l coll IH]; simpl; [done|].
  run. destruct (heap s !! l) as [d|]; [|done].
  destruct (d !! "id") as [v|]; simpl; [|done].
  destruct (py_eq v user_id); [done|apply IH].
Qed.

(** One iteration of the loop. *)
Lemma get_user_loop_cons (user_id : value) (l : loc) (coll : list loc) (s : State) :
  UserRepository.get_user_loop user_id (l :: coll) s =
    match heap s !! l with
    | None => (Raise (Dangling l), s)
    | Some d =>
        match d !! "id" with
        | None => (Raise (KeyError "id"), s)
        | Some v =>
            if py_eq v user_id then (Ok (Some l), s)
            else UserRepository.get_user_loop user_id coll s
        end
    end.
Proof.
  simpl. run. destruct (heap s !! l) as [d|]; [|done].
  destruct (d !! "id") as [v|]; simpl; [|done].
  by destruct (py_eq v user_id).
Qed.

#[global] Arguments UserRepository.get_user_loop : simpl never.
#[global] Arguments ProductRepository.get_product_loop : simpl never.

Section Lookup.

Variable user_id : value.

Lemma get_user_loop_hit (l : loc) (coll : list loc) (s : State) :
  is_match s user_id l = true →
  UserRepository.get_user_loop user_id (l :: coll) s = (Ok (Some l), s).
Proof.
  rewrite get_user_loop_cons. unfold is_match, ident.
  destruct (heap s !! l) as [d|]; simpl; [|done].
  destruct (d !! "id") as [v|]; [|done]. by intros ->.
Qed.

Lemma get_user_loop_miss (l : loc) (coll : list loc) (s : State) :
  has_id s l = true → is_match s user_id l = false →
  UserRepository.get_user_loop user_id (l :: coll) s =
    UserRepository.get_user_loop user_id coll s.
Proof.
  rewrite get_user_loop_cons. unfold has_id, is_match, ident.
  destruct (heap s !! l) as [d|]; simpl; [|done].
  destruct (d !! "id") as [v|]; [|done]. by intros _ ->.
Qed.

(** No record matches: the loop runs to its end and returns [None]. *)
Lemma get_user_loop_none (coll : list loc) (s : State) :
  identified s coll = true → matching s user_id coll = [] →
  UserRepository.get_user_loop user_id coll s = (Ok None, s).
Proof.
  unfold identified, matching.
  induction coll as [|l coll IH]; simpl; [done|].
  intros [Hl Hc]%andb_prop.
  destruct (is_match s user_id l) eqn:Hm; [done|]. intros Hf.
  rewrite get_user_loop_miss by done. by apply IH.
Qed.

(** The loop stops at the first matching record. *)
Lemma get_user_loop_first (pre post : list loc) (l : loc) (s : State) :
  identified s pre = true → matching s user_id pre = [] →
  is_match s user_id l = true →
  UserRepository.get_user_loop user_id (pre ++ l :: post) s = (Ok (Some l), s).
Proof.
  unfold identified, matching.
  induction pre as [|l' pre IH]; simpl.
  - intros _ _. apply get_user_loop_hit.
  - intros [Hl Hc]%andb_prop.
    destruct (is_match s user_id l') eqn:Hm; [done|]. intros Hf Hl0.
    rewrite get_user_loop_miss by done. by apply IH.
Qed.

Lemma get_user_loop_none_inv (coll : list loc) (s s' : State) :
  UserRepository.get_user_loop user_id coll s = (Ok None, s') →
  identified s coll = true ∧ matching s user_id coll = [].
Proof.
  unfold identified, matching.
  induction coll as [|l coll IH]; [done|].
  rewrite get_user_loop_cons. simpl. unfold has_id, is_match, ident.
  destruct (heap s !! l) as [d|]; simpl; [|done].
  destruct (d !! "id") as [v|]; [|done].
  destruct (py_eq v user_id); [done|]. intros H. by apply IH.
Qed.

Lemma get_user_loop_some_inv (coll : list loc) (l : loc) (s s' : State) :
  UserRepository.get_user_loop user_id coll s = (Ok (Some l), s') →
  ∃ pre post, coll = pre ++ l :: post ∧ identified s pre = true ∧
    matching s user_id pre = [] ∧ is_match s user_id l = true.
Proof.
  unfold identified, matching.
  induction coll as [|l0 coll IH]; [done|].
  rewrite get_user_loop_cons.
  destruct (heap s !! l0) as [d|] eqn:Hh; [|done].
  destruct (d !! "id") as [v|] eqn:Hd; [|done].
  destruct (py_eq v user_id) eqn:Hv.
  - intros [= <- <-]. exists [], coll. repeat split.
    unfold is_match, ident. rewrite Hh. simpl. by rewrite Hd.
  - intros (pre & post & -> & Hi & Hm & Hl)%IH.
    exists (l0 :: pre), post. simpl.
    unfold has_id, is_match, ident in *. rewrite Hh. simpl. rewrite Hd, Hv.
    by rewrite Hi, Hm.
Qed.

(** On a collection of identified records the loop never raises. *)
Lemma get_user_loop_total (coll : list loc) (s : State) :
  identified s coll = true →
  ∃ r, UserRepository.get_user_loop user_id coll s = (Ok r, s).
Proof.
  unfold identified.
  induction coll as [|l coll IH]; simpl; [by exists None|].
  intros [Hl Hc]%andb_prop.
  destruct (is_match s user_id l) eqn:Hm.
  - exists (Some l). by apply get_user_loop_hit.
  - rewrite get_user_loop_miss by done. by apply IH.
Qed.

End Lookup.

(** The two classes run the same loop. *)
Lemma get_product_loop_eq :
  ProductRepository.get_product_loop = UserRepository.get_user_loop.
Proof. reflexivity. Qed.

Lemma generate_id_eq :
  ProductRepository._generate_id = UserRepository._generate_id.
Proof. reflexivity. Qed.

(** ** The identifier generator *)

Lemma random_index_bound (r : N) (n : nat) :
  (r < 2 ^ 53)%N → n ≠ 0 → N.to_nat (r * N.of_nat n / 2 ^ 53) < n.
Proof.
  intros Hr Hn.
  assert (r * N.of_nat n / 2 ^ 53 < N.of_nat n)%N as H; [|lia].
  apply N.Div0.div_lt_upper_bound. nia.
Qed.

Lemma consume_0 (s : State) : consume 0 s = s.
Proof. by destruct s as [h [t c] u p]. Qed.

Lemma choices_spec (population : list ascii) (k : nat) (s : State) :
  population ≠ [] →
  ∃ cs, choices population k s = (Ok cs, consume k s) ∧
        length cs = k ∧ Forall (λ c, c ∈ population) cs.
Proof.
  intros Hne. revert s.
  induction k as [|k IH]; intros s; simpl.
  - exists []. by rewrite consume_0.
  - run. unfold random.
    set (r := (tape (rng s) (cursor (rng s)) mod 2 ^ 53)%N).
    set (i := N.to_nat (r * N.of_nat (length population) / 2 ^ 53)).
    assert (i < length population) as Hi.
    { apply random_index_bound; [apply N.mod_lt; lia|].
      by destruct population. }
    destruct (lookup_lt_is_Some_2 population i Hi) as [c Hc].
    rewrite Hc.
    destruct (IH (mkState (heap s) (mkRng (tape (rng s)) (S (cursor (rng s))))
                          (users s) (products s))) as (cs & Hcs & Hlen & Hin).
    rewrite Hcs. exists (c :: cs). split; [|split].
    + unfold consume. simpl. by rewrite Nat.add_succ_r.
    + simpl. by rewrite Hlen.
    + constructor; [|done]. eapply list_elem_of_lookup_2; eauto.
Qed.

Lemma length_join (cs : list ascii) : String.length (join cs) = length cs.
Proof. induction cs as [|c cs IH]; simpl; [done|by rewrite IH]. Qed.

Lemma alphabet_chars :
  Forall (λ c, is_lower_or_digit c = true)
         (list_ascii_of_string (ascii_lowercase +:+ digits)).
Proof.
  apply Forall_forall. intros c Hc%list_elem_of_In.
  assert (forallb is_lower_or_digit
            (list_ascii_of_string (ascii_lowercase +:+ digits)) = true) as H
    by (vm_compute; reflexivity).
  rewrite forallb_forall in H. by apply H.
Qed.

Lemma generate_id_spec (s : State) :
  ∃ fresh, UserRepository._generate_id s = (Ok fresh, consume 9 s) ∧
    String.length fresh = 9 ∧
    Forall (λ c, is_lower_or_digit c = true) (list_ascii_of_string fresh).
Proof.
  destruct (choices_spec (list_ascii_of_string (ascii_lowercase +:+ digits)) 9 s)
    as (cs & Hcs & Hlen & Hin); [done|].
  exists (join cs). unfold UserRepository._generate_id. run. rewrite Hcs.
  split; [done|]. split; [by rewrite length_join|].
  unfold join. rewrite list_ascii_of_string_of_list_ascii.
  pose proof alphabet_chars as Ha. rewrite Forall_forall in Ha.
  rewrite Forall_forall in Hin. apply Forall_forall. intros c Hc.
  by apply Ha, Hin.
Qed.

(** ** Reading identifiers across heap changes *)

Lemma ident_Some (s : State) (l : loc) (v : value) :
  ident s l = Some v ↔ ∃ d, heap s !! l = Some d ∧ d !! "id" = Some v.
Proof.
  unfold ident. destruct (heap s !! l) as [d|]; simpl.
  - split; [eauto|]. by intros (d' & [= <-] & ?).
  - split; [done|]. by intros (d' & ? & _).
Qed.

Lemma has_id_Some (s : State) (l : loc) :
  has_id s l = true ↔ ∃ v, ident s l = Some v.
Proof.
  unfold has_id. destruct (ident s l) as [v|].
  - split; [eauto|done].
  - split; [done|]. by intros [v ?].
Qed.

Lemma is_match_Some (s : State) (user_id : value) (l : loc) :
  is_match s user_id l = true ↔ ∃ v, ident s l = Some v ∧ py_eq v user_id = true.
Proof.
  unfold is_match. destruct (ident s l) as [v|].
  - split; [eauto|]. by intros (v' & [= <-] & ?).
  - split; [done|]. by intros (v & ? & _).
Qed.

Lemma is_match_has_id (s : State) (user_id : value) (l : loc) :
  is_match s user_id l = true → has_id s l = true.
Proof. rewrite is_match_Some, has_id_Some. intros (v & ? & _). eauto. Qed.

Lemma has_id_valid (s : State) (l : loc) :
  has_id s l = true → l < length (heap s).
Proof.
  intros [v (d & Hd & _)%ident_Some]%has_id_Some. by eapply lookup_lt_Some.
Qed.

Lemma identified_elem (s : State) (coll : list loc) (l : loc) :
  identified s coll = true → l ∈ coll → has_id s l = true.
Proof.
  unfold identified. rewrite forallb_forall. intros H Hl.
  by apply H, list_elem_of_In.
Qed.

Lemma matching_nil_elem (s : State) (user_id : value) (coll : list loc) (l : loc) :
  matching s user_id coll = [] → l ∈ coll → is_match s user_id l = false.
Proof.
  unfold matching. intros H Hl. apply list_elem_of_In in Hl.
  destruct (is_match s user_id l) eqn:Hm; [|done].
  assert (In l (List.filter (is_match s user_id) coll)) as Hin
    by (by apply filter_In).
  by rewrite H in Hin.
Qed.

Section Frame.

Variables s1 s2 : State.
Variable coll : list loc.
Hypothesis same : ∀ l, l ∈ coll → heap s1 !! l = heap s2 !! l.

Lemma ident_frame (l : loc) : l ∈ coll → ident s1 l = ident s2 l.
Proof. intros Hl. unfold ident. by rewrite same. Qed.

Lemma identified_frame : identified s1 coll = identified s2 coll.
Proof.
  unfold identified. revert same.
  induction coll as [|l c IH]; intros Hs; simpl; [done|].
  unfold has_id at 1 3, ident. rewrite Hs by left.
  f_equal. apply IH. intros l' Hl'. apply Hs. by right.
Qed.

Lemma matching_frame (user_id : value) :
  matching s1 user_id coll = matching s2 user_id coll.
Proof.
  unfold matching. apply filter_ext_in. intros l Hl%list_elem_of_In.
  unfold is_match. by rewrite ident_frame.
Qed.

End Frame.

(** ** What [create_user], [create_product] and [update_user] compute *)

Lemma create_user_run (user_data : pydict) (s : State) :
  ∃ fresh,
    UserRepository._generate_id s = (Ok fresh, consume 9 s) ∧
    String.length fresh = 9 ∧
    Forall (λ c, is_lower_or_digit c = true) (list_ascii_of_string fresh) ∧
    UserRepository.create_user user_data s =
      (Ok (length (heap s)),
       mkState (heap s ++
                  [user_data ∪
                   <["email" := dict_get user_data "email" (VStr "")]>
                   (<["name" := dict_get user_data "name" (VStr "Unknown")]>
                   (<["id" := dict_get user_data "id" (VStr fresh)]> ∅))])
               (rng (consume 9 s)) (users s ++ [length (heap s)]) (products s)).
Proof.
  destruct (generate_id_spec s) as (fresh & Hg & Hlen & Hal).
  exists fresh. repeat split; try done.
  unfold UserRepository.create_user. run. by rewrite Hg.
Qed.

Lemma create_product_run (product_data : pydict) (s : State) :
  ∃ fresh,
    ProductRepository._generate_id s = (Ok fresh, consume 9 s) ∧
    String.length fresh = 9 ∧
    Forall (λ c, is_lower_or_digit c = true) (list_ascii_of_string fresh) ∧
    ProductRepository.create_product product_data s =
      (Ok (length (heap s)),
       mkState (heap s ++
                  [product_data ∪
                   <["price" := dict_get product_data "price" (VFloat (S754_zero false))]>
                   (<["name" := dict_get product_data "name" (VStr "Unknown Product")]>
                   (<["id" := dict_get product_data "id" (VStr fresh)]> ∅))])
               (rng (consume 9 s)) (users s) (products s ++ [length (heap s)])).
Proof.
  destruct (generate_id_spec s) as (fresh & Hg & Hlen & Hal).
  exists fresh. repeat split; try done.
  unfold ProductRepository.create_product. run.
  rewrite generate_id_eq. by rewrite Hg.
Qed.

Lemma get_user_eq (user_id : value) (s : State) :
  UserRepository.get_user user_id s =
    (outcome (UserRepository.get_user user_id) s, s).
Proof.
  pose proof (get_user_loop_state user_id (users s) s) as H.
  unfold outcome, UserRepository.get_user.
  destruct (UserRepository.get_user_loop user_id (users s) s) as [r s'].
  simpl in *. by subst.
Qed.

Lemma update_user_found (user_id : value) (updates : pydict) (s : State)
    (l : loc) (d : pydict) :
  outcome (UserRepository.get_user user_id) s = Ok (Some l) →
  heap s !! l = Some d →
  UserRepository.update_user user_id updates s =
    (Ok (Some l),
     mkState (<[l := updates ∪ d]> (heap s)) (rng s) (users s) (products s)).
Proof.
  intros Hget Hd. unfold UserRepository.update_user.
  unfold mbind at 1, M_bind. rewrite get_user_eq, Hget.
  assert (dict_truthy d = true) as Ht.
  { pose proof (get_user_eq user_id s) as He. rewrite Hget in He.
    apply get_user_loop_some_inv in He as (_ & _ & _ & _ & _ & Hm).
    apply is_match_Some in Hm as (v & (d' & Hd' & Hv)%ident_Some & _).
    assert (d' = d) as -> by congruence.
    unfold dict_truthy. rewrite bool_decide_eq_false_2; [done|].
    intros ->. by rewrite lookup_empty in Hv. }
  run. by rewrite Hd, Ht, Hd.
Qed.

Lemma update_user_absent (user_id : value) (updates : pydict) (s : State) :
  outcome (UserRepository.get_user user_id) s = Ok None →
  UserRepository.update_user user_id updates s = (Ok None, s).
Proof.
  intros Hget. unfold UserRepository.update_user.
  unfold mbind at 1, M_bind. by rewrite get_user_eq, Hget.
Qed.

(** ** Delegation *)

(** C2: in every state and for every identifier, [fetch_user] returns what
    [get_user] returns and [fetch_product] what [get_product] returns, result
    and state alike, the absent case included. *)
Theorem fetch_is_get (s : State) (x : value) :
  UserRepository.fetch_user x s = UserRepository.get_user x s ∧
  ProductRepository.fetch_product x s = ProductRepository.get_product x s.
Proof. split; reflexivity. Qed.

(** ** Creation *)

Lemma known_user_lookup (user_data : pydict) (fresh : string) (k : string) :
  (user_data ∪
     <["email" := dict_get user_data "email" (VStr "")]>
     (<["name" := dict_get user_data "name" (VStr "Unknown")]>
     (<["id" := dict_get user_data "id" (VStr fresh)]> ∅))) !! k =
  match user_data !! k with
  | Some v => Some v
  | None => user_known_fields fresh !! k
  end.
Proof.
  unfold user_known_fields, dict_get.
  destruct (user_data !! k) as [v|] eqn:Hk.
  - by apply lookup_union_Some_l.
  - rewrite lookup_union_r by done.
    destruct (decide (k = "email")) as [->|]; [by simplify_map_eq|].
    destruct (decide (k = "name")) as [->|]; [by simplify_map_eq|].
    destruct (decide (k = "id")) as [->|]; by simplify_map_eq.
Qed.

Lemma known_product_lookup (product_data : pydict) (fresh : string) (k : string) :
  (product_data ∪
     <["price" := dict_get product_data "price" (VFloat (S754_zero false))]>
     (<["name" := dict_get product_data "name" (VStr "Unknown Product")]>
     (<["id" := dict_get product_data "id" (VStr fresh)]> ∅))) !! k =
  match product_data !! k with
  | Some v => Some v
  | None => product_known_fields fresh !! k
  end.
Proof.
  unfold product_known_fields, dict_get.
  destruct (product_data !! k) as [v|] eqn:Hk.
  - by apply lookup_union_Some_l.
  - rewrite lookup_union_r by done.
    destruct (decide (k = "price")) as [->|]; [by simplify_map_eq|].
    destruct (decide (k = "name")) as [->|]; [by simplify_map_eq|].
    destruct (decide (k = "id")) as [->|]; by simplify_map_eq.
Qed.

(** C4: the record [create_user] returns holds, at every key, the caller's
    value when the input has that key, and otherwise what the known fields
    give there: the generated identifier at ['id'], ["Unknown"] at ['name'],
    the empty string at ['email'], and no binding at any other key;
    [create_product] likewise with ["Unknown Product"] and [0.0]. *)
Theorem create_overlays_input (s : State) (input : pydict) :
  (∃ fresh r d,
     outcome UserRepository._generate_id s = Ok fresh ∧
     outcome (UserRepository.create_user input) s = Ok r ∧
     record_of (after (UserRepository.create_user input) s) r = Some d ∧
     ∀ k, d !! k = match input !! k with
                   | Some v => Some v
                   | None => user_known_fields fresh !! k
                   end) ∧
  (∃ fresh r d,
     outcome ProductRepository._generate_id s = Ok fresh ∧
     outcome (ProductRepository.create_product input) s = Ok r ∧
     record_of (after (ProductRepository.create_product input) s) r = Some d ∧
     ∀ k, d !! k = match input !! k with
                   | Some v => Some v
                   | None => product_known_fields fresh !! k
                   end).
Proof.
  split.
  - destruct (create_user_run input s) as (fresh & Hg & _ & _ & Hc).
    unfold outcome, after, record_of. rewrite Hg, Hc. simpl.
    eexists fresh, _, _. repeat split.
    + by rewrite lookup_app_r, Nat.sub_diag.
    + apply known_user_lookup.
  - destruct (create_product_run input s) as (fresh & Hg & _ & _ & Hc).
    unfold outcome, after, record_of. rewrite Hg, Hc. simpl.
    eexists fresh, _, _. repeat split.
    + by rewrite lookup_app_r, Nat.sub_diag.
    + apply known_product_lookup.
Qed.

(** The example of the specification: [create({"name": "Alice"})]. *)
Example create_alice :
  record_of (after (UserRepository.create_user {[ "name" := VStr "Alice" ]}) boot) 0 =
    Some {[ "id" := VStr "aeimrvz48"; "name" := VStr "Alice"; "email" := VStr "" ]}.
Proof. evaluate. Qed.

(** C3, as the code has it: the identifier of the new record is the input's
    ['id'] value whenever the input has the key ['id'], whatever the value
    (the empty string too); only an input without that key gets the
    generated identifier. *)
Theorem create_identifier (s : State) (input : pydict) :
  (∃ fresh r,
     outcome UserRepository._generate_id s = Ok fresh ∧
     outcome (UserRepository.create_user input) s = Ok r ∧
     ident (after (UserRepository.create_user input) s) r =
       Some (match input !! "id" with Some v => v | None => VStr fresh end)) ∧
  (∃ fresh r,
     outcome ProductRepository._generate_id s = Ok fresh ∧
     outcome (ProductRepository.create_product input) s = Ok r ∧
     ident (after (ProductRepository.create_product input) s) r =
       Some (match input !! "id" with Some v => v | None => VStr fresh end)).
Proof.
  split.
  - destruct (create_user_run input s) as (fresh & Hg & _ & _ & Hc).
    unfold outcome, after. rewrite Hg, Hc. simpl.
    eexists fresh, _. repeat split.
    apply ident_Some. simpl. eexists. split.
    + by rewrite lookup_app_r, Nat.sub_diag.
    + rewrite known_user_lookup. by destruct (input !! "id").
  - destruct (create_product_run input s) as (fresh & Hg & _ & _ & Hc).
    unfold outcome, after. rewrite Hg, Hc. simpl.
    eexists fresh, _. repeat split.
    apply ident_Some. simpl. eexists. split.
    + by rewrite lookup_app_r, Nat.sub_diag.
    + rewrite known_product_lookup. by destruct (input !! "id").
Qed.

(** C3, as written, fails on an input whose ['id'] is the empty string: the
    record keeps the empty identifier, although the generator did produce
    ["aeimrvz48"] during the call. *)
Lemma create_keeps_empty_identifier :
  ({[ "id" := VStr "" ]} : pydict) !! "id" = Some (VStr "") ∧
  outcome UserRepository._generate_id boot = Ok "aeimrvz48" ∧
  outcome (UserRepository.create_user {[ "id" := VStr "" ]}) boot = Ok 0 ∧
  ident (after (UserRepository.create_user {[ "id" := VStr "" ]}) boot) 0 =
    Some (VStr "") ∧
  outcome (ProductRepository.create_product {[ "id" := VStr "" ]}) boot = Ok 0 ∧
  ident (after (ProductRepository.create_product {[ "id" := VStr "" ]}) boot) 0 =
    Some (VStr "").
Proof. evaluate. Qed.

(** C9: in every state the generator of either class returns a string of
    exactly 9 characters, each a lowercase letter or a digit, out of an
    alphabet of 36 symbols; and creating from the empty input gives a record
    made of that identifier and the defaults of the known fields. *)
Theorem generated_identifier (s : State) :
  length (list_ascii_of_string (ascii_lowercase +:+ digits)) = 36 ∧
  (∃ fresh,
     outcome UserRepository._generate_id s = Ok fresh ∧
     String.length fresh = 9 ∧
     Forall (λ c, is_lower_or_digit c = true) (list_ascii_of_string fresh) ∧
     outcome (UserRepository.create_user ∅) s = Ok (length (heap s)) ∧
     record_of (after (UserRepository.create_user ∅) s) (length (heap s)) =
       Some (user_known_fields fresh)) ∧
  (∃ fresh,
     outcome ProductRepository._generate_id s = Ok fresh ∧
     String.length fresh = 9 ∧
     Forall (λ c, is_lower_or_digit c = true) (list_ascii_of_string fresh) ∧
     outcome (ProductRepository.create_product ∅) s = Ok (length (heap s)) ∧
     record_of (after (ProductRepository.create_product ∅) s) (length (heap s)) =
       Some (product_known_fields fresh)).
Proof.
  split; [reflexivity|]. split.
  - destruct (create_user_run ∅ s) as (fresh & Hg & Hlen & Hal & Hc).
    unfold outcome, after, record_of. rewrite Hg, Hc. simpl.
    exists fresh. repeat split; try done.
    rewrite lookup_app_r, Nat.sub_diag by done. reflexivity.
  - destruct (create_product_run ∅ s) as (fresh & Hg & Hlen & Hal & Hc).
    unfold outcome, after, record_of. rewrite Hg, Hc. simpl.
    exists fresh. repeat split; try done.
    rewrite lookup_app_r, Nat.sub_diag by done. reflexivity.
Qed.

(** ** Update *)

(** C5: when no record of a store of identified records matches the
    identifier, [update_user] returns [None] and the state after the call is
    the state before it: same number of users, same fields in every object,
    whatever the [updates].  ([ProductRepository] has no update method.) *)
Theorem update_absent_unchanged (s : State) (user_id : value) (updates : pydict) :
  identified s (users s) = true →
  matching s user_id (users s) = [] →
  outcome (UserRepository.update_user user_id updates) s = Ok None ∧
  after (UserRepository.update_user user_id updates) s = s ∧
  length (users (after (UserRepository.update_user user_id updates) s)) =
    length (users s) ∧
  ∀ l, record_of (after (UserRepository.update_user user_id updates) s) l =
       record_of s l.
Proof.
  intros Hid Hm.
  assert (outcome (UserRepository.get_user user_id) s = Ok None) as Hget.
  { unfold outcome, UserRepository.get_user.
    by rewrite get_user_loop_none. }
  unfold outcome, after. rewrite (update_user_absent _ _ _ Hget). simpl.
  by repeat split.
Qed.

Lemma update_absent_unchanged_sample :
  identified with_alice (users with_alice) = true ∧
  matching with_alice (VStr "nobody") (users with_alice) = [] ∧
  outcome (UserRepository.update_user (VStr "nobody") {[ "name" := VStr "Bob" ]})
    with_alice = Ok None ∧
  after (UserRepository.update_user (VStr "nobody") {[ "name" := VStr "Bob" ]})
    with_alice = with_alice.
Proof.
  assert (identified with_alice (users with_alice) = true) as Hids by evaluate.
  assert (matching with_alice (VStr "nobody") (users with_alice) = []) as Hm
    by evaluate.
  destruct (update_absent_unchanged with_alice (VStr "nobody")
              {[ "name" := VStr "Bob" ]} Hids Hm) as (H1 & H2 & _).
  exact (conj Hids (conj Hm (conj H1 H2))).
Defined.

(** C6: when the lookup of [update_user] finds a record, the call returns
    that record; afterwards the object holds the value of [updates] at every
    key of [updates] and its former value (or absence) at every other key;
    every other object of the heap is as before; and the collection is the
    same list of references, so its length is unchanged. *)
Theorem update_merges (s : State) (user_id : value) (updates : pydict)
    (l : loc) (d : pydict) :
  outcome (UserRepository.get_user user_id) s = Ok (Some l) →
  record_of s l = Some d →
  outcome (UserRepository.update_user user_id updates) s = Ok (Some l) ∧
  (∃ d', record_of (after (UserRepository.update_user user_id updates) s) l = Some d' ∧
         ∀ k, d' !! k = match updates !! k with
                        | Some v => Some v
                        | None => d !! k
                        end) ∧
  (∀ l', l' ≠ l →
         record_of (after (UserRepository.update_user user_id updates) s) l' =
         record_of s l') ∧
  users (after (UserRepository.update_user user_id updates) s) = users s ∧
  length (users (after (UserRepository.update_user user_id updates) s)) =
    length (users s).
Proof.
  intros Hget Hd. unfold record_of in *.
  unfold outcome at 1, after. rewrite (update_user_found _ _ _ _ _ Hget Hd).
  simpl. repeat split.
  - exists (updates ∪ d). split.
    + apply list_lookup_insert_eq. by eapply lookup_lt_Some.
    + intros k. destruct (updates !! k) as [v|] eqn:Hk.
      * by apply lookup_union_Some_l.
      * by apply lookup_union_r.
  - intros l' Hne. by apply list_lookup_insert_ne.
Qed.

Lemma update_merges_sample :
  outcome (UserRepository.get_user (VStr "aeimrvz48")) with_alice = Ok (Some 0) ∧
  record_of with_alice 0 =
    Some {[ "id" := VStr "aeimrvz48"; "name" := VStr "Alice"; "email" := VStr "" ]} ∧
  outcome (UserRepository.update_user (VStr "aeimrvz48") {[ "name" := VStr "Bob" ]})
    with_alice = Ok (Some 0) ∧
  users (after (UserRepository.update_user (VStr "aeimrvz48") {[ "name" := VStr "Bob" ]})
           with_alice) = users with_alice.
Proof.
  assert (outcome (UserRepository.get_user (VStr "aeimrvz48")) with_alice =
            Ok (Some 0)) as Hget by evaluate.
  assert (record_of with_alice 0 =
            Some {[ "id" := VStr "aeimrvz48"; "name" := VStr "Alice";
                    "email" := VStr "" ]}) as Hd by evaluate.
  destruct (update_merges with_alice (VStr "aeimrvz48") {[ "name" := VStr "Bob" ]}
              0 _ Hget Hd) as (H1 & _ & _ & H2 & _).
  exact (conj Hget (conj Hd (conj H1 H2))).
Defined.

(** The example of the specification: [update(id, {"name": "Bob"})]. *)
Example update_alice_to_bob :
  let s' := after (UserRepository.update_user (VStr "aeimrvz48")
                     {[ "name" := VStr "Bob" ]}) with_alice in
  outcome (UserRepository.get_user (VStr "aeimrvz48")) s' = Ok (Some 0) ∧
  record_of s' 0 =
    Some {[ "id" := VStr "aeimrvz48"; "name" := VStr "Bob"; "email" := VStr "" ]}.
Proof. evaluate. Qed.

(** ** Lookup after a creation *)

Section AfterAlloc.

Variables s s' : State.
Variable d : pydict.
Variable coll : list loc.
Hypothesis grown : heap s' = heap s ++ [d].
Hypothesis ids : identified s coll = true.

Lemma alloc_same (l : loc) : l ∈ coll → heap s !! l = heap s' !! l.
Proof.
  intros Hl. rewrite grown, lookup_app_l; [done|].
  by eapply has_id_valid, identified_elem.
Qed.

Lemma alloc_new : heap s' !! length (heap s) = Some d.
Proof. by rewrite grown, lookup_app_r, Nat.sub_diag. Qed.

Lemma alloc_fresh (l : loc) : l ∈ coll → l ≠ length (heap s).
Proof.
  intros Hl. pose proof (has_id_valid s l (identified_elem _ _ _ ids Hl)). lia.
Qed.

(** The appended record is found when no older record matches. *)
Lemma get_user_loop_new (v : value) :
  matching s v coll = [] → d !! "id" = Some v → py_eq v v = true →
  UserRepository.get_user_loop v (coll ++ [length (heap s)]) s' =
    (Ok (Some (length (heap s))), s').
Proof.
  intros Hm Hv Hrefl. apply get_user_loop_first.
  - by rewrite <- (identified_frame s s' coll alloc_same).
  - by rewrite <- (matching_frame s s' coll alloc_same).
  - apply is_match_Some. exists v. split; [|done].
    apply ident_Some. exists d. split; [apply alloc_new|done].
Qed.

(** An older matching record shadows the appended one. *)
Lemma get_user_loop_old (v : value) (i : nat) (l : loc) :
  coll !! i = Some l → is_match s v l = true →
  ∃ j l0, (j ≤ i)%nat ∧ coll !! j = Some l0 ∧ l0 ≠ length (heap s) ∧
    is_match s' v l0 = true ∧ matching s' v (take j coll) = [] ∧
    UserRepository.get_user_loop v coll s = (Ok (Some l0), s) ∧
    UserRepository.get_user_loop v (coll ++ [length (heap s)]) s' =
      (Ok (Some l0), s').
Proof.
  intros Hi Hl.
  destruct (get_user_loop_total v coll s ids) as [[l0|] Hr].
  - destruct (get_user_loop_some_inv _ _ _ _ _ Hr)
      as (pre & post & Hc & Hpi & Hpm & Hl0).
    assert (l0 ∈ coll) as Hin
      by (rewrite Hc; apply elem_of_app; right; left).
    assert (∀ l', l' ∈ pre → heap s !! l' = heap s' !! l') as Hsame.
    { intros l' Hl'. apply alloc_same. rewrite Hc.
      apply elem_of_app. by left. }
    assert (is_match s' v l0 = true) as Hl0'.
    { unfold is_match. rewrite <- (ident_frame s s' coll alloc_same) by done.
      exact Hl0. }
    exists (length pre), l0. repeat split.
    + destruct (decide (length pre ≤ i)%nat) as [|Hn]; [done|].
      assert (l ∈ pre) as Hlp.
      { apply list_elem_of_lookup. exists i.
        rewrite Hc, lookup_app_l in Hi by lia. done. }
      by rewrite (matching_nil_elem _ _ _ _ Hpm Hlp) in Hl.
    + rewrite Hc. by rewrite list_lookup_middle.
    + by apply alloc_fresh.
    + done.
    + rewrite Hc, take_app_length.
      by rewrite <- (matching_frame s s' pre Hsame).
    + done.
    + rewrite Hc, <- app_assoc. simpl. apply get_user_loop_first; [| |done].
      * by rewrite <- (identified_frame s s' pre Hsame).
      * by rewrite <- (matching_frame s s' pre Hsame).
  - apply get_user_loop_none_inv in Hr as [_ Hm].
    assert (l ∈ coll) as Hin by (apply list_elem_of_lookup; eauto).
    by rewrite (matching_nil_elem _ _ _ _ Hm Hin) in Hl.
Qed.

End AfterAlloc.

(** C1, as the code has it: in a store of identified records none of which
    matches the identifier [v] of the record just created, and with [v] equal
    to itself under [==] (every value but a NaN float is), the lookup of [v]
    right after the creation returns the very object the creation returned;
    the same for products. *)
Theorem create_then_get (s : State) (input : pydict) (v : value) :
  py_eq v v = true →
  (∀ r, outcome (UserRepository.create_user input) s = Ok r →
        ident (after (UserRepository.create_user input) s) r = Some v →
        identified s (users s) = true →
        matching s v (users s) = [] →
        UserRepository.get_user v (after (UserRepository.create_user input) s) =
          (Ok (Some r), after (UserRepository.create_user input) s)) ∧
  (∀ r, outcome (ProductRepository.create_product input) s = Ok r →
        ident (after (ProductRepository.create_product input) s) r = Some v →
        identified s (products s) = true →
        matching s v (products s) = [] →
        ProductRepository.get_product v
            (after (ProductRepository.create_product input) s) =
          (Ok (Some r), after (ProductRepository.create_product input) s)).
Proof.
  intros Hrefl. split.
  - destruct (create_user_run input s) as (fresh & _ & _ & _ & Hc).
    unfold outcome, after. rewrite Hc. simpl.
    intros r [= <-] (d & Hd & Hv)%ident_Some Hids Hm. simpl in Hd.
    rewrite lookup_app_r, Nat.sub_diag in Hd by done. injection Hd as <-.
    unfold UserRepository.get_user. simpl.
    by eapply get_user_loop_new.
  - destruct (create_product_run input s) as (fresh & _ & _ & _ & Hc).
    unfold outcome, after. rewrite Hc. simpl.
    intros r [= <-] (d & Hd & Hv)%ident_Some Hids Hm. simpl in Hd.
    rewrite lookup_app_r, Nat.sub_diag in Hd by done. injection Hd as <-.
    unfold ProductRepository.get_product. simpl.
    rewrite get_product_loop_eq. by eapply get_user_loop_new.
Qed.

Lemma create_then_get_sample :
  py_eq (VStr "cglpty26a") (VStr "cglpty26a") = true ∧
  outcome (UserRepository.create_user {[ "name" := VStr "Carol" ]}) with_alice = Ok 1 ∧
  UserRepository.get_user (VStr "cglpty26a")
      (after (UserRepository.create_user {[ "name" := VStr "Carol" ]}) with_alice) =
    (Ok (Some 1),
     after (UserRepository.create_user {[ "name" := VStr "Carol" ]}) with_alice).
Proof.
  assert (py_eq (VStr "cglpty26a") (VStr "cglpty26a") = true) as Hrefl by evaluate.
  assert (outcome (UserRepository.create_user {[ "name" := VStr "Carol" ]})
            with_alice = Ok 1) as Hr by evaluate.
  assert (ident (after (UserRepository.create_user {[ "name" := VStr "Carol" ]})
                   with_alice) 1 = Some (VStr "cglpty26a")) as Hv by evaluate.
  assert (identified with_alice (users with_alice) = true) as Hids by evaluate.
  assert (matching with_alice (VStr "cglpty26a") (users with_alice) = []) as Hm
    by evaluate.
  exact (conj Hrefl (conj Hr
           (proj1 (create_then_get with_alice {[ "name" := VStr "Carol" ]}
                     (VStr "cglpty26a") Hrefl) 1 Hr Hv Hids Hm))).
Defined.

(** C1, as written, fails when the input repeats the identifier of a stored
    record: the creation returns object 1, named ["second"], and the lookup
    of its identifier returns object 0, named ["first"]. *)
Lemma create_then_get_shadowed :
  outcome (UserRepository.create_user second_a) with_first_a = Ok 1 ∧
  ident (after (UserRepository.create_user second_a) with_first_a) 1 =
    Some (VStr "a") ∧
  outcome (UserRepository.get_user (VStr "a"))
    (after (UserRepository.create_user second_a) with_first_a) = Ok (Some 0) ∧
  record_of (after (UserRepository.create_user second_a) with_first_a) 0 =
    Some {[ "id" := VStr "a"; "name" := VStr "first"; "email" := VStr "" ]} ∧
  record_of (after (UserRepository.create_user second_a) with_first_a) 1 =
    Some {[ "id" := VStr "a"; "name" := VStr "second"; "email" := VStr "" ]}.
Proof. evaluate. Qed.

(** A string equals itself, so a generated identifier always does. *)
Lemma py_eq_str_refl (t : string) : py_eq (VStr t) (VStr t) = true.
Proof. apply String.eqb_refl. Qed.

(** A NaN does not: a record created with a NaN identifier is not found
    under it. *)
Example nan_identifier_not_found :
  py_eq (VFloat S754_nan) (VFloat S754_nan) = false ∧
  outcome (UserRepository.create_user {[ "id" := VFloat S754_nan ]}) boot = Ok 0 ∧
  outcome (UserRepository.get_user (VFloat S754_nan))
    (after (UserRepository.create_user {[ "id" := VFloat S754_nan ]}) boot) = Ok None.
Proof. evaluate. Qed.

(** C8: creating with an explicit identifier that a stored record already
    has (at position [i]) appends a new object carrying that identifier, so
    two elements of the collection share it; the lookup of the identifier
    still returns the first matching element in insertion order, an element
    at a position up to [i], never the new one. *)
Theorem create_duplicate_first_wins (s : State) (input : pydict) (v : value)
    (i : nat) (l : loc) :
  identified s (users s) = true →
  users s !! i = Some l →
  is_match s v l = true →
  input !! "id" = Some v →
  ∃ r, outcome (UserRepository.create_user input) s = Ok r ∧
    users (after (UserRepository.create_user input) s) = users s ++ [r] ∧
    ident (after (UserRepository.create_user input) s) r = Some v ∧
    l ≠ r ∧
    is_match (after (UserRepository.create_user input) s) v l = true ∧
    ∃ j l0, (j ≤ i)%nat ∧
      users (after (UserRepository.create_user input) s) !! j = Some l0 ∧
      l0 ≠ r ∧
      is_match (after (UserRepository.create_user input) s) v l0 = true ∧
      matching (after (UserRepository.create_user input) s) v
        (take j (users (after (UserRepository.create_user input) s))) = [] ∧
      UserRepository.get_user v (after (UserRepository.create_user input) s) =
        (Ok (Some l0), after (UserRepository.create_user input) s).
Proof.
  intros Hids Hi Hl Hv.
  destruct (create_user_run input s) as (fresh & _ & _ & _ & Hc).
  unfold outcome, after. rewrite Hc. simpl.
  set (s' := mkState _ _ _ _).
  assert (heap s' = heap s ++
            [input ∪ <["email":=dict_get input "email" (VStr "")]>
               (<["name":=dict_get input "name" (VStr "Unknown")]>
                  (<["id":=dict_get input "id" (VStr fresh)]> ∅))]) as Hgrown
    by done.
  assert (l ∈ users s) as Hin by (apply list_elem_of_lookup; eauto).
  exists (length (heap s)). repeat split.
  - apply ident_Some. eexists. split; [by eapply alloc_new|].
    by apply lookup_union_Some_l.
  - by eapply alloc_fresh.
  - unfold is_match.
    by rewrite <- (ident_frame s s' (users s) (alloc_same s s' _ _ Hgrown Hids)).
  - destruct (get_user_loop_old s s' _ (users s) Hgrown Hids v i l Hi Hl)
      as (j & l0 & Hj & Hl0 & Hne & Hm0 & Hpre & _ & Hget).
    pose proof (lookup_lt_Some _ _ _ Hi) as Hlt.
    exists j, l0. repeat split; try done.
    + subst s'. simpl. by rewrite lookup_app_l by lia.
    + subst s'. simpl. by rewrite take_app_le by lia.
Qed.

Lemma create_duplicate_first_wins_sample :
  identified with_first_a (users with_first_a) = true ∧
  users with_first_a !! 0 = Some 0 ∧
  is_match with_first_a (VStr "a") 0 = true ∧
  second_a !! "id" = Some (VStr "a") ∧
  ∃ r, outcome (UserRepository.create_user second_a) with_first_a = Ok r ∧
    users (after (UserRepository.create_user second_a) with_first_a) =
      users with_first_a ++ [r] ∧
    ident (after (UserRepository.create_user second_a) with_first_a) r =
      Some (VStr "a") ∧
    0 ≠ r.
Proof.
  assert (identified with_first_a (users with_first_a) = true) as Hids by evaluate.
  assert (users with_first_a !! 0 = Some 0) as Hi by evaluate.
  assert (is_match with_first_a (VStr "a") 0 = true) as Hl by evaluate.
  assert (second_a !! "id" = Some (VStr "a")) as Hv by evaluate.
  destruct (create_duplicate_first_wins with_first_a second_a (VStr "a") 0 0
              Hids Hi Hl Hv) as (r & H1 & H2 & H3 & H4 & _).
  exact (conj Hids (conj Hi (conj Hl (conj Hv
           (ex_intro _ r (conj H1 (conj H2 (conj H3 H4)))))))).
Defined.

(** ** Lookup after an update *)

Lemma matching_none (s : State) (user_id : value) (coll : list loc) :
  (∀ l, l ∈ coll → is_match s user_id l = false) →
  matching s user_id coll = [].
Proof.
  unfold matching. induction coll as [|a coll IH]; intros H; simpl; [done|].
  rewrite H by left. apply IH. intros l Hl. apply H. by right.
Qed.

(** Exactly one element matches: the collection splits around it. *)
Lemma matching_singleton (s : State) (user_id : value) (coll : list loc) (l : loc) :
  matching s user_id coll = [l] →
  ∃ pre post, coll = pre ++ l :: post ∧ matching s user_id pre = [] ∧
    matching s user_id post = [] ∧ is_match s user_id l = true.
Proof.
  unfold matching. induction coll as [|a coll IH]; simpl; [done|].
  destruct (is_match s user_id a) eqn:Ha.
  - intros [= -> Hrest]. by exists [], coll.
  - intros (pre & post & -> & Hpre & Hpost & Hl)%IH.
    exists (a :: pre), post. simpl. by rewrite Ha.
Qed.

Section AfterUpdate.

Variables s s' : State.
Variable l : loc.
Variables d updates : pydict.
Hypothesis stored : heap s !! l = Some d.
Hypothesis merged : heap s' = <[l := updates ∪ d]> (heap s).

Lemma update_other (l' : loc) : l' ≠ l → heap s !! l' = heap s' !! l'.
Proof. intros Hne. by rewrite merged, list_lookup_insert_ne. Qed.

Lemma update_self : heap s' !! l = Some (updates ∪ d).
Proof.
  rewrite merged. apply list_lookup_insert_eq. by eapply lookup_lt_Some.
Qed.

Lemma update_keeps_id (l' : loc) : has_id s l' = true → has_id s' l' = true.
Proof.
  destruct (decide (l' = l)) as [->|Hne].
  - intros [v (d' & Hd' & Hv)%ident_Some]%has_id_Some.
    assert (d' = d) as -> by congruence.
    apply has_id_Some.
    destruct (lookup_union_is_Some updates d "id") as [_ [w Hw]];
      [right; eauto|].
    exists w. apply ident_Some. exists (updates ∪ d).
    split; [apply update_self|done].
  - unfold has_id, ident. by rewrite (update_other l' Hne).
Qed.

Lemma update_keeps_identified (coll : list loc) :
  identified s coll = true → identified s' coll = true.
Proof.
  unfold identified. rewrite !forallb_forall.
  intros H x Hx. by apply update_keeps_id, H.
Qed.

Lemma update_sets_ident (v : value) :
  updates !! "id" = Some v → ident s' l = Some v.
Proof.
  intros Hv. apply ident_Some. exists (updates ∪ d).
  split; [apply update_self|by apply lookup_union_Some_l].
Qed.

Lemma update_is_match_other (user_id : value) (l' : loc) :
  l' ≠ l → is_match s' user_id l' = is_match s user_id l'.
Proof.
  intros Hne. unfold is_match, ident. by rewrite (update_other l' Hne).
Qed.

End AfterUpdate.

(** C7, as the code has it: in a store of identified records where exactly
    one element matches [oldId], an update whose fields set ['id'] to a
    [newId] different from [oldId] returns that record, leaves the collection
    the same list of references (the record stays at its only position),
    makes [newId] the record's identifier and makes the lookup of [oldId]
    return [None]; the lookup of [newId] returns the record provided [newId]
    equals itself under [==] and no element before the record matches
    [newId]. *)
Theorem update_rewrites_identifier (s : State) (oldId newId : value)
    (updates : pydict) (l : loc) :
  identified s (users s) = true →
  matching s oldId (users s) = [l] →
  updates !! "id" = Some newId →
  py_eq newId oldId = false →
  outcome (UserRepository.update_user oldId updates) s = Ok (Some l) ∧
  users (after (UserRepository.update_user oldId updates) s) = users s ∧
  ident (after (UserRepository.update_user oldId updates) s) l = Some newId ∧
  UserRepository.get_user oldId (after (UserRepository.update_user oldId updates) s) =
    (Ok None, after (UserRepository.update_user oldId updates) s) ∧
  ∃ i, users s !! i = Some l ∧ (∀ j, users s !! j = Some l → j = i) ∧
    (py_eq newId newId = true →
     matching s newId (take i (users s)) = [] →
     UserRepository.get_user newId
         (after (UserRepository.update_user oldId updates) s) =
       (Ok (Some l), after (UserRepository.update_user oldId updates) s)).
Proof.
  intros Hids Hm Hnew Hne.
  destruct (matching_singleton _ _ _ _ Hm) as (pre & post & Hc & Hpre & Hpost & Hl).
  assert (∀ x, x ∈ pre → x ≠ l) as Hpre_ne.
  { intros x Hx ->. by rewrite (matching_nil_elem _ _ _ _ Hpre Hx) in Hl. }
  assert (∀ x, x ∈ post → x ≠ l) as Hpost_ne.
  { intros x Hx ->. by rewrite (matching_nil_elem _ _ _ _ Hpost Hx) in Hl. }
  assert (identified s pre = true) as Hipre.
  { unfold identified in *. rewrite Hc, forallb_app in Hids.
    by apply andb_prop in Hids as [? _]. }
  assert (outcome (UserRepository.get_user oldId) s = Ok (Some l)) as Hget.
  { unfold outcome, UserRepository.get_user. rewrite Hc.
    by rewrite get_user_loop_first. }
  destruct (proj1 (is_match_Some _ _ _) Hl) as (v0 & (d & Hd & Hv0)%ident_Some & _).
  unfold outcome at 1, after. rewrite (update_user_found _ _ _ _ _ Hget Hd).
  simpl. set (s' := mkState _ _ _ _).
  assert (heap s' = <[l := updates ∪ d]> (heap s)) as Hmerged by done.
  assert (ident s' l = Some newId) as Hid'
    by (by eapply update_sets_ident).
  split; [done|]. split; [done|]. split; [done|]. split.
  - unfold UserRepository.get_user. simpl. apply get_user_loop_none.
    + by eapply update_keeps_identified.
    + apply matching_none. intros x Hx.
      destruct (decide (x = l)) as [->|Hxl].
      * unfold is_match. by rewrite Hid'.
      * rewrite (update_is_match_other s s' l d updates Hmerged) by done.
        rewrite Hc in Hx. apply elem_of_app in Hx as [Hx|Hx].
        -- exact (matching_nil_elem _ _ _ _ Hpre Hx).
        -- apply elem_of_cons in Hx as [->|Hx]; [done|].
           exact (matching_nil_elem _ _ _ _ Hpost Hx).
  - exists (length pre). split; [|split].
    + by rewrite Hc, list_lookup_middle.
    + intros j Hj. rewrite Hc in Hj.
      destruct (Nat.lt_trichotomy j (length pre)) as [Hlt|[->|Hgt]]; [|done|].
      * rewrite lookup_app_l in Hj by done.
        exfalso. eapply Hpre_ne; [|done]. apply list_elem_of_lookup. eauto.
      * rewrite lookup_app_r in Hj by lia.
        destruct (j - length pre) as [|n] eqn:Hn; [lia|]. simpl in Hj.
        exfalso. eapply Hpost_ne; [|done]. apply list_elem_of_lookup. eauto.
    + intros Hrefl Hbefore. rewrite Hc, take_app_length in Hbefore.
      unfold UserRepository.get_user. simpl. rewrite Hc.
      apply get_user_loop_first.
      * by eapply update_keeps_identified.
      * apply matching_none. intros x Hx.
        rewrite (update_is_match_other s s' l d updates Hmerged)
          by (by apply Hpre_ne).
        exact (matching_nil_elem _ _ _ _ Hbefore Hx).
      * unfold is_match. by rewrite Hid'.
Qed.

Lemma update_rewrites_identifier_sample :
  identified with_alice (users with_alice) = true ∧
  matching with_alice (VStr "aeimrvz48") (users with_alice) = [0] ∧
  ({[ "id" := VStr "zed" ]} : pydict) !! "id" = Some (VStr "zed") ∧
  py_eq (VStr "zed") (VStr "aeimrvz48") = false ∧
  outcome (UserRepository.update_user (VStr "aeimrvz48") {[ "id" := VStr "zed" ]})
    with_alice = Ok (Some 0) ∧
  UserRepository.get_user (VStr "aeimrvz48")
      (after (UserRepository.update_user (VStr "aeimrvz48") {[ "id" := VStr "zed" ]})
         with_alice) =
    (Ok None,
     after (UserRepository.update_user (VStr "aeimrvz48") {[ "id" := VStr "zed" ]})
       with_alice).
Proof.
  assert (identified with_alice (users with_alice) = true) as Hids by evaluate.
  assert (matching with_alice (VStr "aeimrvz48") (users with_alice) = [0]) as Hm
    by evaluate.
  assert (({[ "id" := VStr "zed" ]} : pydict) !! "id" = Some (VStr "zed")) as Hnew
    by evaluate.
  assert (py_eq (VStr "zed") (VStr "aeimrvz48") = false) as Hne by evaluate.
  destruct (update_rewrites_identifier with_alice (VStr "aeimrvz48") (VStr "zed")
              {[ "id" := VStr "zed" ]} 0 Hids Hm Hnew Hne)
    as (H1 & _ & _ & H2 & _).
  exact (conj Hids (conj Hm (conj Hnew (conj Hne (conj H1 H2))))).
Defined.

(** C7, as written, fails when an earlier record already has the new
    identifier: exactly one record matches ["old"] (object 1, named ["B"]);
    after its identifier is overwritten with ["new"], the lookup of ["new"]
    returns object 0, named ["A"], not the mutated record. *)
Lemma update_rewrites_identifier_shadowed :
  identified with_new_old (users with_new_old) = true ∧
  matching with_new_old (VStr "old") (users with_new_old) = [1] ∧
  py_eq (VStr "new") (VStr "old") = false ∧
  outcome (UserRepository.update_user (VStr "old") {[ "id" := VStr "new" ]})
    with_new_old = Ok (Some 1) ∧
  ident (after (UserRepository.update_user (VStr "old") {[ "id" := VStr "new" ]})
           with_new_old) 1 = Some (VStr "new") ∧
  outcome (UserRepository.get_user (VStr "new"))
    (after (UserRepository.update_user (VStr "old") {[ "id" := VStr "new" ]})
       with_new_old) = Ok (Some 0) ∧
  record_of (after (UserRepository.update_user (VStr "old") {[ "id" := VStr "new" ]})
               with_new_old) 0 =
    Some {[ "id" := VStr "new"; "name" := VStr "A"; "email" := VStr "" ]} ∧
  record_of (after (UserRepository.update_user (VStr "old") {[ "id" := VStr "new" ]})
               with_new_old) 1 =
    Some {[ "id" := VStr "new"; "name" := VStr "B"; "email" := VStr "" ]}.
Proof. evaluate. Qed.

(** When the store holds that record alone, nothing can shadow it. *)
Corollary update_rewrites_identifier_alone (s : State) (oldId newId : value)
    (updates : pydict) (l : loc) :
  users s = [l] →
  is_match s oldId l = true →
  updates !! "id" = Some newId →
  py_eq newId oldId = false →
  py_eq newId newId = true →
  UserRepository.get_user oldId (after (UserRepository.update_user oldId updates) s) =
    (Ok None, after (UserRepository.update_user oldId updates) s) ∧
  UserRepository.get_user newId (after (UserRepository.update_user oldId updates) s) =
    (Ok (Some l), after (UserRepository.update_user oldId updates) s).
Proof.
  intros Hu Hl Hnew Hne Hrefl.
  assert (outcome (UserRepository.get_user oldId) s = Ok (Some l)) as Hget.
  { unfold outcome, UserRepository.get_user. rewrite Hu.
    by rewrite get_user_loop_hit. }
  destruct (proj1 (is_match_Some _ _ _) Hl) as (v0 & (d & Hd & _)%ident_Some & _).
  unfold after. rewrite (update_user_found _ _ _ _ _ Hget Hd).
  simpl. set (s' := mkState _ _ _ _).
  assert (ident s' l = Some newId) as Hid'
    by (by eapply (update_sets_ident s s' l d updates)).
  unfold UserRepository.get_user. simpl. rewrite Hu. split.
  - rewrite get_user_loop_miss; [done| |].
    + apply has_id_Some. eauto.
    + unfold is_match. by rewrite Hid'.
  - apply get_user_loop_hit. unfold is_match. by rewrite Hid'.
Qed.

(** ** Reachable states *)

Lemma create_user_keeps (s : State) (input : pydict) :
  identified s (users s) = true → identified s (products s) = true →
  identified (after (UserRepository.create_user input) s)
    (users (after (UserRepository.create_user input) s)) = true ∧
  identified (after (UserRepository.create_user input) s)
    (products (after (UserRepository.create_user input) s)) = true.
Proof.
  intros Hu Hp.
  destruct (create_user_run input s) as (fresh & _ & _ & _ & Hc).
  unfold after. rewrite Hc. simpl. set (s' := mkState _ _ _ _).
  assert (heap s' = heap s ++
            [input ∪ <["email":=dict_get input "email" (VStr "")]>
               (<["name":=dict_get input "name" (VStr "Unknown")]>
                  (<["id":=dict_get input "id" (VStr fresh)]> ∅))]) as Hgrown
    by done.
  split.
  - unfold identified. rewrite forallb_app. apply andb_true_intro. split.
    + fold (identified s' (users s)).
      by rewrite <- (identified_frame s s' _ (alloc_same s s' _ _ Hgrown Hu)).
    + simpl. rewrite andb_true_r. apply has_id_Some.
      exists (default (VStr fresh) (input !! "id")).
      apply ident_Some. eexists. split; [by eapply alloc_new|].
      rewrite known_user_lookup. by destruct (input !! "id").
  - by rewrite <- (identified_frame s s' _ (alloc_same s s' _ _ Hgrown Hp)).
Qed.

Lemma create_product_keeps (s : State) (input : pydict) :
  identified s (users s) = true → identified s (products s) = true →
  identified (after (ProductRepository.create_product input) s)
    (users (after (ProductRepository.create_product input) s)) = true ∧
  identified (after (ProductRepository.create_product input) s)
    (products (after (ProductRepository.create_product input) s)) = true.
Proof.
  intros Hu Hp.
  destruct (create_product_run input s) as (fresh & _ & _ & _ & Hc).
  unfold after. rewrite Hc. simpl. set (s' := mkState _ _ _ _).
  assert (heap s' = heap s ++
            [input ∪ <["price":=dict_get input "price" (VFloat (S754_zero false))]>
               (<["name":=dict_get input "name" (VStr "Unknown Product")]>
                  (<["id":=dict_get input "id" (VStr fresh)]> ∅))]) as Hgrown
    by done.
  split.
  - by rewrite <- (identified_frame s s' _ (alloc_same s s' _ _ Hgrown Hu)).
  - unfold identified. rewrite forallb_app. apply andb_true_intro. split.
    + fold (identified s' (products s)).
      by rewrite <- (identified_frame s s' _ (alloc_same s s' _ _ Hgrown Hp)).
    + simpl. rewrite andb_true_r. apply has_id_Some.
      exists (default (VStr fresh) (input !! "id")).
      apply ident_Some. eexists. split; [by eapply alloc_new|].
      rewrite known_product_lookup. by destruct (input !! "id").
Qed.

Lemma update_user_keeps (s : State) (user_id : value) (updates : pydict) :
  identified s (users s) = true → identified s (products s) = true →
  (∃ r, outcome (UserRepository.update_user user_id updates) s = Ok r) ∧
  identified (after (UserRepository.update_user user_id updates) s)
    (users (after (UserRepository.update_user user_id updates) s)) = true ∧
  identified (after (UserRepository.update_user user_id updates) s)
    (products (after (UserRepository.update_user user_id updates) s)) = true.
Proof.
  intros Hu Hp.
  destruct (get_user_loop_total user_id (users s) s Hu) as [[l|] Hr].
  - assert (outcome (UserRepository.get_user user_id) s = Ok (Some l)) as Hget
      by (unfold outcome, UserRepository.get_user; by rewrite Hr).
    apply get_user_loop_some_inv in Hr as (_ & _ & _ & _ & _ & Hl).
    destruct (proj1 (is_match_Some _ _ _) Hl) as (v & (d & Hd & _)%ident_Some & _).
    unfold outcome, after. rewrite (update_user_found _ _ _ _ _ Hget Hd). simpl.
    split; [eauto|].
    split; by eapply update_keeps_identified.
  - assert (outcome (UserRepository.get_user user_id) s = Ok None) as Hget
      by (unfold outcome, UserRepository.get_user; by rewrite Hr).
    unfold outcome, after. rewrite (update_user_absent _ _ _ Hget). simpl. eauto.
Qed.

Lemma reachable_identified (s : State) :
  reachable s →
  identified s (users s) = true ∧ identified s (products s) = true.
Proof.
  induction 1 as [h g|s input _ [Hu Hp]|s user_id updates _ [Hu Hp]
                 |s input _ [Hu Hp]].
  - done.
  - by apply create_user_keeps.
  - by apply update_user_keeps.
  - by apply create_product_keeps.
Qed.

(** C10: in every state reached from empty repositories by calls of
    [create_user], [update_user] and [create_product], every element of
    [users] is an object with the key ['id']; hence [get_user], [fetch_user]
    and [update_user] return a result there and never raise. *)
Theorem reachable_lookup_safe (s : State) :
  reachable s →
  (∀ l, l ∈ users s → ∃ d v, record_of s l = Some d ∧ d !! "id" = Some v) ∧
  ∀ user_id,
    (∃ r, UserRepository.get_user user_id s = (Ok r, s)) ∧
    (∃ r, UserRepository.fetch_user user_id s = (Ok r, s)) ∧
    ∀ updates, ∃ r, outcome (UserRepository.update_user user_id updates) s = Ok r.
Proof.
  intros [Hu Hp]%reachable_identified. split.
  - intros l Hl.
    destruct (proj1 (has_id_Some _ _) (identified_elem _ _ _ Hu Hl)) as [v Hv].
    apply ident_Some in Hv as (d & Hd & Hv). by exists d, v.
  - intros user_id.
    assert (∃ r, UserRepository.get_user user_id s = (Ok r, s)) as Hget
      by (by apply get_user_loop_total).
    split; [done|]. split; [done|].
    intros updates. by apply update_user_keeps.
Qed.

Lemma reachable_lookup_safe_sample :
  reachable (after (UserRepository.update_user (VStr "aeimrvz48")
                      {[ "name" := VStr "Bob" ]}) with_alice) ∧
  ∃ r, UserRepository.get_user (VStr "aeimrvz48")
         (after (UserRepository.update_user (VStr "aeimrvz48")
                   {[ "name" := VStr "Bob" ]}) with_alice) =
       (Ok r, after (UserRepository.update_user (VStr "aeimrvz48")
                       {[ "name" := VStr "Bob" ]}) with_alice).
Proof.
  assert (reachable (after (UserRepository.update_user (VStr "aeimrvz48")
                              {[ "name" := VStr "Bob" ]}) with_alice)) as Hr.
  { apply reach_update_user. apply reach_create_user. apply reach_new. }
  exact (conj Hr (proj1 (proj2 (reachable_lookup_safe _ Hr) (VStr "aeimrvz48")))).
Defined.

(** * Further properties of the repositories *)

(** ** Lookup *)

Lemma get_user_loop_skip (user_id : value) (pre rest : list loc) (s : State) :
  identified s pre = true → matching s user_id pre = [] →
  UserRepository.get_user_loop user_id (pre ++ rest) s =
    UserRepository.get_user_loop user_id rest s.
Proof.
  unfold identified, matching.
  induction pre as [|a pre IH]; simpl; [done|].
  intros [Ha Hp]%andb_prop.
  destruct (is_match s user_id a) eqn:Hm; [done|]. intros Hf.
  rewrite get_user_loop_miss by done. by apply IH.
Qed.

(** The result of the loop depends on the identifiers of the elements only. *)
Lemma get_user_loop_ext (user_id : value) (coll : list loc) (s1 s2 : State) :
  (∀ l, l ∈ coll →
        ident s1 l = ident s2 l ∧ (heap s1 !! l = None ↔ heap s2 !! l = None)) →
  fst (UserRepository.get_user_loop user_id coll s1) =
    fst (UserRepository.get_user_loop user_id coll s2).
Proof.
  induction coll as [|a coll IH]; intros H; [done|].
  destruct (H a) as [Hid Hnone]; [left|].
  rewrite !get_user_loop_cons. unfold ident in Hid.
  destruct (heap s1 !! a) as [d1|] eqn:H1, (heap s2 !! a) as [d2|] eqn:H2;
    simpl in Hid.
  - rewrite Hid. destruct (d2 !! "id") as [v|]; [|done].
    destruct (py_eq v user_id); [done|].
    apply IH. intros l Hl. apply H. by right.
  - discriminate (proj2 Hnone eq_refl).
  - discriminate (proj1 Hnone eq_refl).
  - done.
Qed.

Lemma outcome_get_user (user_id : value) (s : State) :
  outcome (UserRepository.get_user user_id) s =
    fst (UserRepository.get_user_loop user_id (users s) s).
Proof. reflexivity. Qed.

Lemma outcome_get_product (product_id : value) (s : State) :
  outcome (ProductRepository.get_product product_id) s =
    fst (UserRepository.get_user_loop product_id (products s) s).
Proof. reflexivity. Qed.

(** X1: a lookup never modifies anything.  Whatever the state and the
    identifier, and whether the call returns a record, returns [None] or
    raises, [get_user], [fetch_user], [get_product] and [fetch_product] leave
    the state as it was; so a second lookup right after the first gives the
    same result. *)
Theorem lookup_is_pure (s : State) (x : value) :
  after (UserRepository.get_user x) s = s ∧
  after (UserRepository.fetch_user x) s = s ∧
  after (ProductRepository.get_product x) s = s ∧
  after (ProductRepository.fetch_product x) s = s ∧
  (UserRepository.get_user x;; UserRepository.get_user x) s =
    UserRepository.get_user x s.
Proof.
  assert (after (UserRepository.get_user x) s = s) as Hu
    by apply get_user_loop_state.
  assert (after (ProductRepository.get_product x) s = s) as Hp.
  { unfold after, ProductRepository.get_product. rewrite get_product_loop_eq.
    apply get_user_loop_state. }
  repeat split; try done.
  unfold mbind, M_bind. rewrite get_user_eq.
  destruct (outcome (UserRepository.get_user x) s) as [r|e] eqn:Hr; [|done].
  by rewrite get_user_eq, Hr.
Qed.

(** X2: [get_user] returns a record exactly when that record is the first
    element of [users] whose identifier equals the argument, every element
    before it being a record with a different identifier. *)
Theorem get_user_found_iff (s : State) (x : value) (l : loc) :
  outcome (UserRepository.get_user x) s = Ok (Some l) ↔
  ∃ pre post, users s = pre ++ l :: post ∧ identified s pre = true ∧
    matching s x pre = [] ∧ is_match s x l = true.
Proof.
  split.
  - intros H. pose proof (get_user_eq x s) as He. rewrite H in He.
    by apply get_user_loop_some_inv in He.
  - intros (pre & post & Hc & Hi & Hm & Hl).
    unfold outcome, UserRepository.get_user. rewrite Hc.
    by rewrite get_user_loop_first.
Qed.

(** X3: [get_user] returns [None] exactly when every element of [users] is
    a record with an identifier and none of these identifiers equals the
    argument. *)
Theorem get_user_absent_iff (s : State) (x : value) :
  outcome (UserRepository.get_user x) s = Ok None ↔
  identified s (users s) = true ∧ matching s x (users s) = [].
Proof.
  split.
  - intros H. pose proof (get_user_eq x s) as He. rewrite H in He.
    by apply get_user_loop_none_inv in He.
  - intros [Hi Hm]. unfold outcome, UserRepository.get_user.
    by rewrite get_user_loop_none.
Qed.

(** X4: a record without the key ['id'] makes the lookup raise [KeyError]
    as soon as the loop reaches it, that is when no element before it
    matches; [update_user] then raises the same error, and neither call
    changes the state. *)
Theorem lookup_key_error (s : State) (x : value) (pre post : list loc)
    (l : loc) (d : pydict) :
  users s = pre ++ l :: post →
  identified s pre = true →
  matching s x pre = [] →
  record_of s l = Some d →
  d !! "id" = None →
  UserRepository.get_user x s = (Raise (KeyError "id"), s) ∧
  ∀ updates, UserRepository.update_user x updates s = (Raise (KeyError "id"), s).
Proof.
  intros Hc Hi Hm Hd Hk.
  assert (UserRepository.get_user x s = (Raise (KeyError "id"), s)) as Hget.
  { unfold UserRepository.get_user. rewrite Hc, get_user_loop_skip by done.
    rewrite get_user_loop_cons. unfold record_of in Hd. by rewrite Hd, Hk. }
  split; [done|]. intros updates.
  unfold UserRepository.update_user, mbind, M_bind. by rewrite Hget.
Qed.

Lemma lookup_key_error_sample :
  users with_anonymous = [0] ++ 1 :: [2] ∧
  record_of with_anonymous 1 = Some {[ "name" := VStr "nameless" ]} ∧
  UserRepository.get_user (VStr "c") with_anonymous =
    (Raise (KeyError "id"), with_anonymous) ∧
  outcome (UserRepository.get_user (VStr "a")) with_anonymous = Ok (Some 0).
Proof.
  assert (users with_anonymous = [0] ++ 1 :: [2]) as Hc by evaluate.
  assert (identified with_anonymous [0] = true) as Hi by evaluate.
  assert (matching with_anonymous (VStr "c") [0] = []) as Hm by evaluate.
  assert (record_of with_anonymous 1 = Some {[ "name" := VStr "nameless" ]}) as Hd
    by evaluate.
  assert (({[ "name" := VStr "nameless" ]} : pydict) !! "id" = None) as Hk
    by evaluate.
  assert (outcome (UserRepository.get_user (VStr "a")) with_anonymous =
            Ok (Some 0)) as Ha by evaluate.
  exact (conj Hc (conj Hd (conj
           (proj1 (lookup_key_error with_anonymous (VStr "c") [0] [2] 1 _
                     Hc Hi Hm Hd Hk)) Ha))).
Defined.

(** ** Creation *)

Lemma grown_same (s s' : State) (d : pydict) (l : loc) :
  heap s' = heap s ++ [d] → l < length (heap s) → heap s !! l = heap s' !! l.
Proof. intros -> Hl. by rewrite lookup_app_l. Qed.

(** X5: [create_user] returns a reference that named no object before,
    appends it at the end of [users], adds exactly one object to the heap and
    touches neither [products] nor any object that existed. *)
Theorem create_user_frame (s : State) (input : pydict) :
  outcome (UserRepository.create_user input) s = Ok (length (heap s)) ∧
  record_of s (length (heap s)) = None ∧
  users (after (UserRepository.create_user input) s) =
    users s ++ [length (heap s)] ∧
  products (after (UserRepository.create_user input) s) = products s ∧
  length (heap (after (UserRepository.create_user input) s)) =
    S (length (heap s)) ∧
  ∀ l d, record_of s l = Some d →
         record_of (after (UserRepository.create_user input) s) l = Some d.
Proof.
  destruct (create_user_run input s) as (fresh & _ & _ & _ & Hc).
  unfold outcome, after, record_of. rewrite Hc. simpl. repeat split.
  - by apply lookup_ge_None_2.
  - rewrite length_app. simpl. lia.
  - intros l d Hd. by apply lookup_app_l_Some.
Qed.

(** X6: [create_product] likewise: a new reference appended to [products],
    one more object, [users] and the existing objects untouched. *)
Theorem create_product_frame (s : State) (input : pydict) :
  outcome (ProductRepository.create_product input) s = Ok (length (heap s)) ∧
  record_of s (length (heap s)) = None ∧
  products (after (ProductRepository.create_product input) s) =
    products s ++ [length (heap s)] ∧
  users (after (ProductRepository.create_product input) s) = users s ∧
  length (heap (after (ProductRepository.create_product input) s)) =
    S (length (heap s)) ∧
  ∀ l d, record_of s l = Some d →
         record_of (after (ProductRepository.create_product input) s) l = Some d.
Proof.
  destruct (create_product_run input s) as (fresh & _ & _ & _ & Hc).
  unfold outcome, after, record_of. rewrite Hc. simpl. repeat split.
  - by apply lookup_ge_None_2.
  - rewrite length_app. simpl. lia.
  - intros l d Hd. by apply lookup_app_l_Some.
Qed.

(** X7: every creation draws nine outputs from the process-wide generator,
    also when the input brings its own ['id'] and the generated identifier
    is thrown away: the default argument of [get] is evaluated before the
    call. *)
Theorem create_draws_nine (s : State) (input : pydict) :
  rng (after (UserRepository.create_user input) s) =
    mkRng (tape (rng s)) (9 + cursor (rng s)) ∧
  rng (after (ProductRepository.create_product input) s) =
    mkRng (tape (rng s)) (9 + cursor (rng s)) ∧
  after UserRepository._generate_id s = consume 9 s.
Proof.
  destruct (create_user_run input s) as (fu & Hg & _ & _ & Hu).
  destruct (create_product_run input s) as (fp & _ & _ & _ & Hp).
  unfold after. rewrite Hu, Hp, Hg. by simpl.
Qed.

(** X8: how a creation changes the lookups.  When the lookup of [x]
    succeeded before [create_user], it gives afterwards: the same record if
    it had found one; and if it had found none, the new record when the new
    identifier equals [x], and [None] otherwise. *)
Theorem get_after_create (s : State) (input : pydict) (x : value)
    (before : option loc) :
  outcome (UserRepository.get_user x) s = Ok before →
  ∃ r v, outcome (UserRepository.create_user input) s = Ok r ∧
    ident (after (UserRepository.create_user input) s) r = Some v ∧
    outcome (UserRepository.get_user x)
      (after (UserRepository.create_user input) s) =
      Ok (match before with
          | Some l => Some l
          | None => if py_eq v x then Some r else None
          end).
Proof.
  intros Hget. pose proof (get_user_eq x s) as He. rewrite Hget in He.
  destruct (create_user_run input s) as (fresh & _ & _ & _ & Hc).
  unfold outcome at 1, after. rewrite Hc. simpl. set (s' := mkState _ _ _ _).
  assert (heap s' = heap s ++
            [input ∪ <["email":=dict_get input "email" (VStr "")]>
               (<["name":=dict_get input "name" (VStr "Unknown")]>
                  (<["id":=dict_get input "id" (VStr fresh)]> ∅))]) as Hgrown
    by done.
  assert (ident s' (length (heap s)) = Some (default (VStr fresh) (input !! "id")))
    as Hid.
  { apply ident_Some. eexists. split; [by eapply alloc_new|].
    rewrite known_user_lookup. by destruct (input !! "id"). }
  exists (length (heap s)), (default (VStr fresh) (input !! "id")).
  split; [done|]. split; [done|].
  rewrite outcome_get_user. change (users s') with (users s ++ [length (heap s)]).
  destruct before as [l|].
  - apply get_user_loop_some_inv in He as (pre & post & Hu & Hi & Hm & Hl).
    assert (identified s (pre ++ [l]) = true) as Hi'.
    { unfold identified in *. rewrite forallb_app, Hi. simpl.
      by rewrite (is_match_has_id _ _ _ Hl). }
    pose proof (alloc_same s s' _ _ Hgrown Hi') as Hsame.
    rewrite Hu, <- app_assoc. simpl.
    rewrite get_user_loop_first; [done| | |].
    + rewrite <- (identified_frame s s' pre); [done|].
      intros y Hy. apply Hsame, elem_of_app. by left.
    + rewrite <- (matching_frame s s' pre); [done|].
      intros y Hy. apply Hsame, elem_of_app. by left.
    + unfold is_match. rewrite <- (ident_frame s s' _ Hsame); [done|].
      apply elem_of_app. right. left.
  - apply get_user_loop_none_inv in He as [Hi Hm].
    pose proof (alloc_same s s' _ _ Hgrown Hi) as Hsame.
    rewrite get_user_loop_skip.
    + rewrite get_user_loop_cons.
      apply ident_Some in Hid as (d & -> & ->).
      by destruct (py_eq _ x).
    + by rewrite <- (identified_frame s s' _ Hsame).
    + by rewrite <- (matching_frame s s' _ Hsame).
Qed.

Lemma get_after_create_sample :
  outcome (UserRepository.get_user (VStr "a")) with_first_a = Ok (Some 0) ∧
  ∃ r v, outcome (UserRepository.create_user second_a) with_first_a = Ok r ∧
    ident (after (UserRepository.create_user second_a) with_first_a) r = Some v ∧
    outcome (UserRepository.get_user (VStr "a"))
      (after (UserRepository.create_user second_a) with_first_a) = Ok (Some 0).
Proof.
  assert (outcome (UserRepository.get_user (VStr "a")) with_first_a =
            Ok (Some 0)) as Hget by evaluate.
  exact (conj Hget (get_after_create with_first_a second_a (VStr "a") (Some 0) Hget)).
Defined.

(** X9: the two repositories do not disturb each other's lookups: creating
    a product leaves the result of every [get_user] as it was, and creating
    a user the result of every [get_product], whenever the collection looked
    up holds records with identifiers. *)
Theorem create_keeps_other_lookups (s : State) (input : pydict) (x : value) :
  (identified s (users s) = true →
   outcome (UserRepository.get_user x)
     (after (ProductRepository.create_product input) s) =
   outcome (UserRepository.get_user x) s) ∧
  (identified s (products s) = true →
   outcome (ProductRepository.get_product x)
     (after (UserRepository.create_user input) s) =
   outcome (ProductRepository.get_product x) s).
Proof.
  split; intros Hi.
  - destruct (create_product_run input s) as (fresh & _ & _ & _ & Hc).
    unfold after. rewrite Hc. simpl. set (s' := mkState _ _ _ _).
    rewrite !outcome_get_user. change (users s') with (users s). symmetry.
    apply get_user_loop_ext. intros l Hl.
    pose proof (has_id_valid _ _ (identified_elem _ _ _ Hi Hl)) as Hlt.
    unfold ident. subst s'. simpl. by rewrite lookup_app_l.
  - destruct (create_user_run input s) as (fresh & _ & _ & _ & Hc).
    unfold after. rewrite Hc. simpl. set (s' := mkState _ _ _ _).
    rewrite !outcome_get_product. change (products s') with (products s).
    symmetry. apply get_user_loop_ext. intros l Hl.
    pose proof (has_id_valid _ _ (identified_elem _ _ _ Hi Hl)) as Hlt.
    unfold ident. subst s'. simpl. by rewrite lookup_app_l.
Qed.

Lemma create_keeps_other_lookups_sample :
  identified with_alice (users with_alice) = true ∧
  outcome (UserRepository.get_user (VStr "aeimrvz48"))
    (after (ProductRepository.create_product {[ "id" := VStr "aeimrvz48" ]})
       with_alice) =
  outcome (UserRepository.get_user (VStr "aeimrvz48")) with_alice.
Proof.
  assert (identified with_alice (users with_alice) = true) as Hi by evaluate.
  exact (conj Hi (proj1 (create_keeps_other_lookups with_alice
                           {[ "id" := VStr "aeimrvz48" ]} (VStr "aeimrvz48")) Hi)).
Defined.

(** X10: an input that brings all three known fields of a user is stored
    as it is: the record holds exactly the input's bindings, no default
    enters. *)
Theorem create_user_full_input (s : State) (input : pydict) :
  is_Some (input !! "id") → is_Some (input !! "name") →
  is_Some (input !! "email") →
  record_of (after (UserRepository.create_user input) s) (length (heap s)) =
    Some input.
Proof.
  intros [vi Hi] [vn Hn] [ve He].
  destruct (create_user_run input s) as (fresh & _ & _ & _ & Hc).
  unfold after, record_of. rewrite Hc. simpl.
  rewrite lookup_app_r, Nat.sub_diag by done. simpl. f_equal.
  apply map_eq. intros k. rewrite known_user_lookup.
  destruct (input !! k) as [v|] eqn:Hk; [done|].
  unfold user_known_fields.
  destruct (decide (k = "id")) as [->|]; [congruence|].
  destruct (decide (k = "name")) as [->|]; [congruence|].
  destruct (decide (k = "email")) as [->|]; [congruence|].
  by simplify_map_eq.
Qed.

Lemma create_user_full_input_sample :
  record_of
    (after (UserRepository.create_user
              {[ "id" := VInt 7; "name" := VStr "Dan"; "email" := VNone;
                 "age" := VInt 30 ]}) boot) (length (heap boot)) =
  Some {[ "id" := VInt 7; "name" := VStr "Dan"; "email" := VNone;
          "age" := VInt 30 ]}.
Proof.
  apply create_user_full_input;
    [exists (VInt 7)|exists (VStr "Dan")|exists VNone]; evaluate.
Defined.

(** ** Update *)

(** Either the lookup finds a record, which is then overwritten in place,
    or the call is the lookup and nothing more. *)
Lemma update_user_cases (s : State) (x : value) (updates : pydict) :
  (∃ l d, outcome (UserRepository.get_user x) s = Ok (Some l) ∧
     heap s !! l = Some d ∧
     UserRepository.update_user x updates s =
       (Ok (Some l),
        mkState (<[l := updates ∪ d]> (heap s)) (rng s) (users s) (products s))) ∨
  ((∀ l, outcome (UserRepository.get_user x) s ≠ Ok (Some l)) ∧
   UserRepository.update_user x updates s = UserRepository.get_user x s).
Proof.
  destruct (outcome (UserRepository.get_user x) s) as [[l|]|e] eqn:Hr.
  - left. pose proof (get_user_eq x s) as He. rewrite Hr in He.
    apply get_user_loop_some_inv in He as (_ & _ & _ & _ & _ & Hl).
    destruct (proj1 (is_match_Some _ _ _) Hl) as (v & (d & Hd & _)%ident_Some & _).
    exists l, d. split; [done|]. split; [done|].
    by apply update_user_found.
  - right. split; [done|].
    by rewrite (update_user_absent _ _ _ Hr), get_user_eq, Hr.
  - right. split; [done|].
    unfold UserRepository.update_user, mbind, M_bind.
    by rewrite get_user_eq, Hr.
Qed.

(** Merging fields that do not mention ['id'] changes no identifier and
    removes no object. *)
Lemma update_same_idents (s : State) (l : loc) (d updates : pydict) (l' : loc) :
  heap s !! l = Some d → updates !! "id" = None →
  ident s l' =
    ident (mkState (<[l := updates ∪ d]> (heap s)) (rng s) (users s) (products s))
      l' ∧
  (heap s !! l' = None ↔ <[l := updates ∪ d]> (heap s) !! l' = None).
Proof.
  intros Hd Hu. unfold ident. simpl.
  destruct (decide (l' = l)) as [->|Hne].
  - rewrite list_lookup_insert_eq by (by eapply lookup_lt_Some).
    rewrite Hd. simpl. by rewrite lookup_union_r.
  - by rewrite list_lookup_insert_ne.
Qed.

(** X11: [update_user] returns exactly what [get_user] returns for the
    same identifier in the same state: the record found, [None], or the same
    exception. *)
Theorem update_returns_lookup (s : State) (x : value) (updates : pydict) :
  outcome (UserRepository.update_user x updates) s =
    outcome (UserRepository.get_user x) s.
Proof.
  destruct (update_user_cases s x updates) as [(l & d & Hg & _ & Hu)|[_ Hu]].
  - unfold outcome at 1. by rewrite Hu, Hg.
  - unfold outcome. by rewrite Hu.
Qed.

(** X12: [update_user] removes nothing.  In every state and for every
    argument the two collections and the generator are as before, the heap
    has as many objects, and every object keeps every key it had. *)
Theorem update_never_drops (s : State) (x : value) (updates : pydict) :
  users (after (UserRepository.update_user x updates) s) = users s ∧
  products (after (UserRepository.update_user x updates) s) = products s ∧
  rng (after (UserRepository.update_user x updates) s) = rng s ∧
  length (heap (after (UserRepository.update_user x updates) s)) =
    length (heap s) ∧
  ∀ l d, record_of s l = Some d →
    ∃ d', record_of (after (UserRepository.update_user x updates) s) l = Some d' ∧
          ∀ k, is_Some (d !! k) → is_Some (d' !! k).
Proof.
  destruct (update_user_cases s x updates) as [(l & d & _ & Hd & Hu)|[_ Hu]].
  - unfold after, record_of. rewrite Hu. simpl. repeat split.
    + apply length_insert.
    + intros l' d' Hd'. destruct (decide (l' = l)) as [->|Hne].
      * exists (updates ∪ d). split.
        -- apply list_lookup_insert_eq. by eapply lookup_lt_Some.
        -- intros k Hk. apply lookup_union_is_Some. right. congruence.
      * exists d'. by rewrite list_lookup_insert_ne.
  - assert (after (UserRepository.update_user x updates) s = s) as ->
      by (unfold after; rewrite Hu; apply get_user_loop_state).
    repeat split. intros l d Hd. by exists d.
Qed.

(** X13: an update with no fields is a lookup: same result, same state. *)
Theorem update_empty_is_get (s : State) (x : value) :
  UserRepository.update_user x ∅ s = UserRepository.get_user x s.
Proof.
  destruct (update_user_cases s x ∅) as [(l & d & Hg & Hd & Hu)|[_ Hu]]; [|done].
  rewrite Hu, get_user_eq, Hg. f_equal.
  rewrite (left_id_L ∅ (∪)), list_insert_id by done.
  by destruct s.
Qed.

(** X14: fields that do not mention ['id'] leave every lookup as it was,
    in both repositories, whatever the update did. *)
Theorem update_keeps_lookups (s : State) (x : value) (updates : pydict) (y : value) :
  updates !! "id" = None →
  outcome (UserRepository.get_user y)
    (after (UserRepository.update_user x updates) s) =
    outcome (UserRepository.get_user y) s ∧
  outcome (ProductRepository.get_product y)
    (after (UserRepository.update_user x updates) s) =
    outcome (ProductRepository.get_product y) s.
Proof.
  intros Hno.
  destruct (update_user_cases s x updates) as [(l & d & _ & Hd & Hu)|[_ Hu]].
  - unfold after. rewrite Hu. simpl.
    rewrite !outcome_get_user, !outcome_get_product. simpl.
    split; symmetry; apply get_user_loop_ext; intros l' _;
      by apply update_same_idents.
  - assert (after (UserRepository.update_user x updates) s = s) as ->
      by (unfold after; rewrite Hu; apply get_user_loop_state).
    done.
Qed.

Lemma update_keeps_lookups_sample :
  ({[ "name" := VStr "Bob" ]} : pydict) !! "id" = None ∧
  outcome (UserRepository.get_user (VStr "aeimrvz48"))
    (after (UserRepository.update_user (VStr "aeimrvz48") {[ "name" := VStr "Bob" ]})
       with_alice_and_pen) =
  outcome (UserRepository.get_user (VStr "aeimrvz48")) with_alice_and_pen.
Proof.
  assert (({[ "name" := VStr "Bob" ]} : pydict) !! "id" = None) as Hno by evaluate.
  exact (conj Hno (proj1 (update_keeps_lookups with_alice_and_pen (VStr "aeimrvz48")
                            {[ "name" := VStr "Bob" ]} (VStr "aeimrvz48") Hno))).
Defined.

(** X15: an update whose fields do not mention ['id'] is idempotent:
    running the same call a second time returns the same result and leaves
    the state of the first call. *)
Theorem update_idempotent (s : State) (x : value) (updates : pydict) :
  updates !! "id" = None →
  (UserRepository.update_user x updates;; UserRepository.update_user x updates) s =
    UserRepository.update_user x updates s.
Proof.
  intros Hno. unfold mbind at 1, M_bind.
  destruct (update_user_cases s x updates) as [(l & d & Hg & Hd & Hu)|[Hn Hu]].
  - rewrite Hu. set (s' := mkState _ _ _ _).
    assert (outcome (UserRepository.get_user x) s' = Ok (Some l)) as Hg'.
    { rewrite <- Hg, !outcome_get_user. symmetry.
      apply get_user_loop_ext. intros l' _. by apply update_same_idents. }
    assert (heap s' !! l = Some (updates ∪ d)) as Hd'.
    { apply list_lookup_insert_eq. by eapply lookup_lt_Some. }
    rewrite (update_user_found _ _ _ _ _ Hg' Hd'). f_equal. subst s'. simpl.
    by rewrite list_insert_insert_eq, (assoc_L (∪)), (idemp_L (∪)).
  - rewrite Hu, get_user_eq.
    destruct (outcome (UserRepository.get_user x) s) as [r|e] eqn:Hr; [|done].
    by rewrite Hu, get_user_eq, Hr.
Qed.

Lemma update_idempotent_sample :
  ({[ "name" := VStr "Bob" ]} : pydict) !! "id" = None ∧
  (UserRepository.update_user (VStr "aeimrvz48") {[ "name" := VStr "Bob" ]};;
   UserRepository.update_user (VStr "aeimrvz48") {[ "name" := VStr "Bob" ]})
    with_alice =
  UserRepository.update_user (VStr "aeimrvz48") {[ "name" := VStr "Bob" ]} with_alice.
Proof.
  assert (({[ "name" := VStr "Bob" ]} : pydict) !! "id" = None) as Hno by evaluate.
  exact (conj Hno (update_idempotent with_alice (VStr "aeimrvz48")
                     {[ "name" := VStr "Bob" ]} Hno)).
Defined.

(** ** Invariants of the reachable states *)

Lemma update_user_keeps_keys (s : State) (x : value) (updates : pydict)
    (l : loc) (d : pydict) :
  record_of s l = Some d →
  ∃ d', record_of (after (UserRepository.update_user x updates) s) l = Some d' ∧
        ∀ k, is_Some (d !! k) → is_Some (d' !! k).
Proof.
  intros Hl.
  destruct (update_user_cases s x updates) as [(l0 & d0 & _ & Hd & Hu)|[_ Hu]].
  - unfold after, record_of in *. rewrite Hu. simpl.
    destruct (decide (l = l0)) as [->|Hne].
    + exists (updates ∪ d0). split.
      * apply list_lookup_insert_eq. by eapply lookup_lt_Some.
      * intros k Hk. apply lookup_union_is_Some. right. congruence.
    + exists d. by rewrite list_lookup_insert_ne.
  - assert (after (UserRepository.update_user x updates) s = s) as ->
      by (unfold after; rewrite Hu; apply get_user_loop_state).
    by exists d.
Qed.

Lemma update_user_keeps_lists (s : State) (x : value) (updates : pydict) :
  users (after (UserRepository.update_user x updates) s) = users s ∧
  products (after (UserRepository.update_user x updates) s) = products s ∧
  length (heap (after (UserRepository.update_user x updates) s)) =
    length (heap s).
Proof.
  destruct (update_user_cases s x updates) as [(l0 & d0 & _ & Hd & Hu)|[_ Hu]].
  - unfold after. rewrite Hu. simpl. by rewrite length_insert.
  - assert (after (UserRepository.update_user x updates) s = s) as ->
      by (unfold after; rewrite Hu; apply get_user_loop_state).
    done.
Qed.

Lemma identified_valid (s : State) (coll : list loc) (l : loc) :
  identified s coll = true → l ∈ coll → l < length (heap s).
Proof. intros Hi Hl. by eapply has_id_valid, identified_elem. Qed.

(** X16: no two elements of the collections are the same object.  In every
    reachable state [users] and [products] name existing objects, neither
    list repeats a reference, and no reference occurs in both. *)
Theorem reachable_no_alias (s : State) :
  reachable s →
  NoDup (users s) ∧ NoDup (products s) ∧
  (∀ l, l ∈ users s → l ∉ products s) ∧
  (∀ l, l ∈ users s ∨ l ∈ products s → l < length (heap s)).
Proof.
  induction 1 as [h g|s input Hr (Hu & Hp & Hd & Hv)
                 |s x updates Hr (Hu & Hp & Hd & Hv)
                 |s input Hr (Hu & Hp & Hd & Hv)].
  - simpl. repeat split; try constructor.
    + intros l Hl. by apply not_elem_of_nil in Hl.
    + intros l [Hl|Hl]; by apply not_elem_of_nil in Hl.
  - destruct (create_user_run input s) as (fresh & _ & _ & _ & Hc).
    unfold after. rewrite Hc. simpl. repeat split.
    + apply NoDup_app. split; [done|]. split; [|apply NoDup_singleton].
      intros l Hl ->%list_elem_of_singleton.
      pose proof (Hv _ (or_introl Hl)). lia.
    + done.
    + intros l [Hl| ->%list_elem_of_singleton]%elem_of_app; [by apply Hd|].
      intros Hl. pose proof (Hv _ (or_intror Hl)). lia.
    + rewrite length_app. simpl.
      intros l [[Hl| ->%list_elem_of_singleton]%elem_of_app|Hl]; [|lia|].
      * pose proof (Hv _ (or_introl Hl)). lia.
      * pose proof (Hv _ (or_intror Hl)). lia.
  - destruct (update_user_keeps_lists s x updates) as (-> & -> & ->). done.
  - destruct (create_product_run input s) as (fresh & _ & _ & _ & Hc).
    unfold after. rewrite Hc. simpl. repeat split.
    + done.
    + apply NoDup_app. split; [done|]. split; [|apply NoDup_singleton].
      intros l Hl ->%list_elem_of_singleton.
      pose proof (Hv _ (or_intror Hl)). lia.
    + intros l Hl [Hl'| ->%list_elem_of_singleton]%elem_of_app; [by eapply Hd|].
      pose proof (Hv _ (or_introl Hl)). lia.
    + rewrite length_app. simpl.
      intros l [Hl|[Hl| ->%list_elem_of_singleton]%elem_of_app]; [| |lia].
      * pose proof (Hv _ (or_introl Hl)). lia.
      * pose proof (Hv _ (or_intror Hl)). lia.
Qed.

Lemma reachable_with_alice_and_pen : reachable with_alice_and_pen.
Proof. apply reach_create_product, reach_create_user, reach_new. Qed.

Lemma reachable_no_alias_sample :
  reachable with_alice_and_pen ∧
  NoDup (users with_alice_and_pen) ∧ NoDup (products with_alice_and_pen).
Proof.
  destruct (reachable_no_alias _ reachable_with_alice_and_pen) as (Hu & Hp & _).
  exact (conj reachable_with_alice_and_pen (conj Hu Hp)).
Defined.

(** X17: in every reachable state each user record has the keys ['id'],
    ['name'] and ['email'] and each product record the keys ['id'], ['name']
    and ['price']: creation writes them and nothing removes a key. *)
Theorem reachable_known_fields (s : State) :
  reachable s →
  (∀ l, l ∈ users s →
        ∃ d, record_of s l = Some d ∧ is_Some (d !! "id") ∧
             is_Some (d !! "name") ∧ is_Some (d !! "email")) ∧
  (∀ l, l ∈ products s →
        ∃ d, record_of s l = Some d ∧ is_Some (d !! "id") ∧
             is_Some (d !! "name") ∧ is_Some (d !! "price")).
Proof.
  induction 1 as [h g|s input Hr [Hu Hp]|s x updates Hr [Hu Hp]
                 |s input Hr [Hu Hp]].
  - simpl. split; intros l Hl; by apply not_elem_of_nil in Hl.
  - destruct (create_user_run input s) as (fresh & _ & _ & _ & Hc).
    unfold after, record_of in *. rewrite Hc. simpl. split.
    + intros l [Hl| ->%list_elem_of_singleton]%elem_of_app.
      * destruct (Hu l Hl) as (d & Hd & Hk). exists d.
        split; [by apply lookup_app_l_Some|done].
      * eexists. split; [by rewrite lookup_app_r, Nat.sub_diag|].
        rewrite !known_user_lookup. unfold user_known_fields.
        repeat split.
        -- by destruct (input !! "id").
        -- by destruct (input !! "name").
        -- by destruct (input !! "email").
    + intros l Hl. destruct (Hp l Hl) as (d & Hd & Hk). exists d.
      split; [by apply lookup_app_l_Some|done].
  - destruct (update_user_keeps_lists s x updates) as (Hsu & Hsp & _).
    rewrite Hsu, Hsp. split.
    + intros l Hl. destruct (Hu l Hl) as (d & Hd & Hi & Hn & He).
      destruct (update_user_keeps_keys s x updates l d Hd) as (d' & Hd' & Hk).
      exists d'. auto.
    + intros l Hl. destruct (Hp l Hl) as (d & Hd & Hi & Hn & He).
      destruct (update_user_keeps_keys s x updates l d Hd) as (d' & Hd' & Hk).
      exists d'. auto.
  - destruct (create_product_run input s) as (fresh & _ & _ & _ & Hc).
    unfold after, record_of in *. rewrite Hc. simpl. split.
    + intros l Hl. destruct (Hu l Hl) as (d & Hd & Hk). exists d.
      split; [by apply lookup_app_l_Some|done].
    + intros l [Hl| ->%list_elem_of_singleton]%elem_of_app.
      * destruct (Hp l Hl) as (d & Hd & Hk). exists d.
        split; [by apply lookup_app_l_Some|done].
      * eexists. split; [by rewrite lookup_app_r, Nat.sub_diag|].
        rewrite !known_product_lookup. unfold product_known_fields.
        repeat split.
        -- by destruct (input !! "id").
        -- by destruct (input !! "name").
        -- by destruct (input !! "price").
Qed.

Lemma reachable_known_fields_sample :
  reachable with_alice_and_pen ∧
  ∀ l, l ∈ users with_alice_and_pen →
       ∃ d, record_of with_alice_and_pen l = Some d ∧ is_Some (d !! "id") ∧
            is_Some (d !! "name") ∧ is_Some (d !! "email").
Proof.
  exact (conj reachable_with_alice_and_pen
           (proj1 (reachable_known_fields _ reachable_with_alice_and_pen))).
Defined.

(** ** The example run *)

(** X18: the example block always finds the user it created.  From any
    state and on any tape, the run constructs an empty repository, creates
    one record and looks it up: [found_user] is the very object [user], the
    only element of [users], holding the generated identifier (nine
    lowercase letters or digits), the name and the email address. *)
Theorem main_finds_created_user (s : State) :
  ∃ fresh,
    String.length fresh = 9 ∧
    Forall (λ c, is_lower_or_digit c = true) (list_ascii_of_string fresh) ∧
    outcome main s = Ok (length (heap s), Some (length (heap s))) ∧
    users (after main s) = [length (heap s)] ∧
    record_of (after main s) (length (heap s)) =
      Some {[ "id" := VStr fresh; "name" := VStr "John Doe";
              "email" := VStr "john@example.com" ]}.
Proof.
  set (input := ({[ "name" := VStr "John Doe";
                    "email" := VStr "john@example.com" ]} : pydict)).
  set (s1 := mkState (heap s) (rng s) [] (products s)).
  destruct (create_user_run input s1) as (fresh & _ & Hlen & Hal & Hc).
  exists fresh. split; [done|]. split; [done|].
  assert (main s =
            (Ok (length (heap s), Some (length (heap s))),
             after (UserRepository.create_user input) s1)) as Hmain.
  { unfold main, after. unfold mbind at 1, M_bind.
    unfold UserRepository.__init__. fold s1. fold input.
    unfold mbind at 1, M_bind. rewrite Hc. simpl.
    unfold mbind at 1, M_bind, deref. simpl.
    rewrite lookup_app_r, Nat.sub_diag by done. simpl.
    unfold mbind at 1, M_bind, subscript.
    rewrite known_user_lookup.
    change (input !! "id") with (@None value).
    change (user_known_fields fresh !! "id") with (Some (VStr fresh)).
    unfold mret at 1, M_ret.
    unfold mbind at 1, M_bind, UserRepository.get_user. simpl.
    rewrite get_user_loop_hit; [done|].
    apply is_match_Some. exists (VStr fresh). split; [|apply py_eq_str_refl].
    apply ident_Some. eexists. simpl. split.
    - by rewrite lookup_app_r, Nat.sub_diag.
    - rewrite known_user_lookup. reflexivity. }
  unfold outcome, after at 1 2. rewrite Hmain. simpl.
  split; [done|]. unfold after, record_of. rewrite Hc. simpl.
  split; [done|].
  rewrite lookup_app_r, Nat.sub_diag by done. reflexivity.
Qed.

(** X19: [update_user] writes only when it returns a record.  In every
    state, also one with a record that lost its ['id'], a call that returns
    [None] or raises leaves the whole state as it was. *)
Theorem update_writes_only_on_hit (s : State) (x : value) (updates : pydict) :
  (∀ l, outcome (UserRepository.update_user x updates) s ≠ Ok (Some l)) →
  after (UserRepository.update_user x updates) s = s.
Proof.
  intros Hmiss.
  destruct (update_user_cases s x updates) as [(l & d & _ & _ & Hu)|[_ Hu]].
  - destruct (Hmiss l). unfold outcome. by rewrite Hu.
  - unfold after. rewrite Hu. apply get_user_loop_state.
Qed.

Lemma update_writes_only_on_hit_sample :
  outcome (UserRepository.update_user (VStr "c") {[ "name" := VStr "Carl" ]})
    with_anonymous = Raise (KeyError "id") ∧
  after (UserRepository.update_user (VStr "c") {[ "name" := VStr "Carl" ]})
    with_anonymous = with_anonymous.
Proof.
  assert (outcome (UserRepository.update_user (VStr "c") {[ "name" := VStr "Carl" ]})
            with_anonymous = Raise (KeyError "id")) as Hr by evaluate.
  refine (conj Hr (update_writes_only_on_hit with_anonymous (VStr "c")
                     {[ "name" := VStr "Carl" ]} _)).
  intros l. rewrite Hr. discriminate.
Defined.
